(** * ai-openscad: render pipeline and cleanup sweep

    A shallow embedding of these modules of the repository:
    - [render-service/app/renderer.py]: [OpenSCADRenderer.render_png] and
      [OpenSCADRenderer.render_stl];
    - [render-service/app/queue_processor.py]:
      [RenderQueueProcessor.process_job] and [RenderQueueProcessor.run];
    - [backend/app/core/cleanup.py]: [FileCleanup.cleanup_old_files] and
      [FileCleanup.get_disk_usage];
    - [backend/app/core/render_manager.py]: [RenderManager];
    - [backend/app/utils/security.py]:
      [SecurityValidator.validate_scad_code];
    - [backend/app/api/v1/render.py]: the job submission endpoint.

    The external world (the OpenSCAD and Xvfb processes, the file system,
    the clock) is an explicit input. Python dictionaries holding the job
    are [gmap string string]; the Redis key/value store is a
    [gmap string (gmap string string)]. Times are whole seconds ([Z]).
    A Python [str] is a [string] of [ascii] characters read as Latin-1,
    so the model covers text whose code points are all below 256. *)

From Stdlib Require Import String Ascii ZArith List.
From stdpp Require Import base gmap strings list pretty.

Local Open Scope string_scope.

(* ------------------------------------------------------------------ *)
(** ** Python helpers *)

(** [str.isspace] on one character of code point below 256 (an [ascii]
    read as Latin-1): \t \n \v \f \r, \x1c-\x1f, the space, \x85 and
    \xa0. These are also the characters [str.strip()] removes and the
    regex [\s] matches. *)
Definition py_isspace (c : ascii) : bool :=
  let n := nat_of_ascii c in
  (((9 <=? n) && (n <=? 13)) || ((28 <=? n) && (n <=? 32))
   || (n =? 133) || (n =? 160))%nat.

Fixpoint py_lstrip (s : string) : string :=
  match s with
  | EmptyString => EmptyString
  | String c r => if py_isspace c then py_lstrip r else s
  end.

Fixpoint py_rev (s : string) : string :=
  match s with
  | EmptyString => EmptyString
  | String c r => String.append (py_rev r) (String c EmptyString)
  end.

(** [str.strip()]. *)
Definition py_strip (s : string) : string :=
  py_rev (py_lstrip (py_rev (py_lstrip s))).

(** Truthiness of a Python [str]. *)
Definition py_truthy (s : string) : bool := negb (String.eqb s "").

(** Truthiness of an [Optional[str]]. *)
Definition py_truthy_opt (s : option string) : bool :=
  match s with Some x => py_truthy x | None => false end.

(** [sep.join(xs)]. *)
Fixpoint py_join (sep : string) (xs : list string) : string :=
  match xs with
  | [] => ""
  | [x] => x
  | x :: rest => x ++ sep ++ py_join sep rest
  end.

(** [str(n)] for an [int]. *)
Definition py_str_int (n : Z) : string := pretty n.

(* ------------------------------------------------------------------ *)
(** ** Processes and [subprocess.run] *)

(** Process life-cycle events visible to the operating system. *)
Inductive proc_event :=
  | XvfbStarted       (* subprocess.Popen(['Xvfb', ...]) *)
  | XvfbTerminated    (* xvfb.terminate() *)
  | XvfbReaped        (* xvfb.wait() returned *)
  | ToolSpawned       (* the openscad child of subprocess.run *)
  | ToolKilled        (* subprocess.run kills the child on timeout *)
  | ToolExited.       (* the openscad child has exited and is reaped *)

(** What [subprocess.run(cmd, ..., timeout=...)] does, as decided by the
    outside world. *)
Inductive run_outcome :=
  | Completed (returncode : Z) (stderr : string)
  | TimedOut
  | RunError (msg : string).   (* any other exception, e.g. binary missing *)

(** Python exceptions that reach the renderer's handlers. *)
Inductive exn :=
  | TimeoutExpired
  | Exception (msg : string).

(** [subprocess.run]: on timeout the standard library kills the child,
    waits for it and re-raises [TimeoutExpired]. *)
Definition subprocess_run (o : run_outcome)
  : list proc_event * ((Z * string) + exn) :=
  match o with
  | Completed rc err => ([ToolSpawned; ToolExited], inl (rc, err))
  | TimedOut => ([ToolSpawned; ToolKilled; ToolExited], inr TimeoutExpired)
  | RunError m => ([], inr (Exception m))
  end.

(** Which processes are alive after a trace: (Xvfb, openscad). *)
Definition live_step (st : bool * bool) (e : proc_event) : bool * bool :=
  let '(x, t) := st in
  match e with
  | XvfbStarted => (true, t)
  | XvfbTerminated | XvfbReaped => (false, t)
  | ToolSpawned => (x, true)
  | ToolKilled | ToolExited => (x, false)
  end.

Definition live_after (tr : list proc_event) : bool * bool :=
  fold_left live_step tr (false, false).

(* ------------------------------------------------------------------ *)
(** ** [OpenSCADRenderer] *)

(** [tuple[bool, str | None]] *)
Definition render_result := (bool * option string)%type.

(** The part of [render_png] that runs inside the inner [try] after
    [subprocess.run] returned. *)
Definition png_checks (rc : Z) (stderr : string) (output_exists : bool)
  : render_result :=
  if negb (Z.eqb rc 0) then
    (false, Some (if py_truthy stderr then py_strip stderr
                  else "OpenSCAD rendering failed"))
  else if negb output_exists then (false, Some "Preview image not created")
  else (true, None).

(** [render_png]. [xvfb_popen] is [Some msg] when starting Xvfb raises;
    [output_exists] is [output_file.exists()] after the tool ran. *)
Definition render_png (timeout : Z) (xvfb_popen : option string)
    (o : run_outcome) (output_exists : bool)
  : render_result * list proc_event :=
  match xvfb_popen with
  | Some m => ((false, Some ("Rendering error: " ++ m)), [])
  | None =>
      let '(tr, r) := subprocess_run o in
      (* finally: xvfb.terminate(); xvfb.wait() *)
      let tr := (XvfbStarted :: tr ++ [XvfbTerminated; XvfbReaped])%list in
      match r with
      | inl (rc, err) => (png_checks rc err output_exists, tr)
      | inr TimeoutExpired =>
          ((false, Some ("Rendering timeout (" ++ py_str_int timeout
                         ++ "s exceeded)")), tr)
      | inr (Exception m) => ((false, Some ("Rendering error: " ++ m)), tr)
      end
  end.

Definition stl_checks (rc : Z) (stderr : string) (output_exists : bool)
  : render_result :=
  if negb (Z.eqb rc 0) then
    (false, Some (if py_truthy stderr then py_strip stderr
                  else "STL generation failed"))
  else if negb output_exists then (false, Some "STL file not created")
  else (true, None).

(** [render_stl]: no display server. *)
Definition render_stl (timeout : Z) (o : run_outcome) (output_exists : bool)
  : render_result * list proc_event :=
  let '(tr, r) := subprocess_run o in
  match r with
  | inl (rc, err) => (stl_checks rc err output_exists, tr)
  | inr TimeoutExpired =>
      ((false, Some ("STL rendering timeout (" ++ py_str_int timeout
                     ++ "s exceeded)")), tr)
  | inr (Exception m) => ((false, Some ("STL rendering error: " ++ m)), tr)
  end.

(* ------------------------------------------------------------------ *)
(** ** [RenderQueueProcessor.process_job] *)

(** A job dictionary, as decoded from the queue entry. *)
Abbreviation job_dict := (gmap string string).

(** The Redis key/value store: key [job:{id}] to the decoded JSON record. *)
Abbreviation kv_store := (gmap string job_dict).

(** What the outside world does while one job is processed. *)
Record tool_env := {
  env_timeout : Z;                (* OpenSCADRenderer.timeout *)
  env_xvfb : option string;       (* Some msg: Popen(['Xvfb', ...]) raises *)
  env_png : run_outcome;          (* subprocess.run for the PNG *)
  env_png_file : bool;            (* the PNG exists afterwards *)
  env_stl : run_outcome;          (* subprocess.run for the STL *)
  env_stl_file : bool             (* the STL exists afterwards *)
}.

(** Observable effects of [process_job], in program order. *)
Inductive action :=
  | SetEx (key : string) (ttl : Z) (record : job_dict)   (* redis.setex *)
  | CallPng (tr : list proc_event)                      (* render_png *)
  | CallStl (tr : list proc_event).                     (* render_stl *)

Definition job_key (job_id : string) : string := "job:" ++ job_id.

(** [if success: job[url_key] = url / elif error: errors.append(prefix+error)] *)
Definition record_outcome (r : render_result) (url_key url prefix : string)
    (job : job_dict) (errors : list string) : job_dict * list string :=
  let '(ok, err) := r in
  if ok then (<[url_key := url]> job, errors)
  else match err with
       | Some e => if py_truthy e then (job, app errors [prefix ++ e]) else (job, errors)
       | None => (job, errors)
       end.

(** [process_job]. [None]: a [KeyError] on [job['job_id']] or
    [job['scad_path']] escapes before anything is written. *)
Definition process_job (E : tool_env) (job : job_dict) : option (list action) :=
  match job !! "job_id", job !! "scad_path" with
  | Some job_id, Some _ =>
      let job := <["status" := "processing"]> job in
      let w1 := SetEx (job_key job_id) 3600 job in
      (* try: *)
      let errors := @nil string in
      let '(rp, trp) := render_png (env_timeout E) (env_xvfb E)
                                   (env_png E) (env_png_file E) in
      let '(job, errors) :=
        record_outcome rp "preview_url" ("/api/v1/render/" ++ job_id ++ "/preview")
                       "Preview: " job errors in
      let '(job, stl_calls) :=
        match job !! "format" with
        | None =>
            (* KeyError('format') caught by [except Exception as e] *)
            (<["error" := "'format'"]> (<["status" := "failed"]> job), [])
        | Some fmt =>
            let '(job, errors, calls) :=
              if String.eqb fmt "stl" || String.eqb fmt "both" then
                let '(rs, trs) := render_stl (env_timeout E) (env_stl E)
                                             (env_stl_file E) in
                let '(job, errors) :=
                  record_outcome rs "stl_url"
                    ("/api/v1/render/" ++ job_id ++ "/download") "STL: " job errors in
                (job, errors, [CallStl trs])
              else (job, errors, []) in
            match errors with
            | [] => (<["status" := "completed"]> job, calls)
            | _ => (<["error" := py_join "; " errors]>
                      (<["status" := "failed"]> job), calls)
            end
        end in
      Some ([w1; CallPng trp] ++ stl_calls ++ [SetEx (job_key job_id) 3600 job])%list
  | _, _ => None
  end.

(** Applying the writes of a run to the store. *)
Definition apply_action (s : kv_store) (a : action) : kv_store :=
  match a with
  | SetEx k _ d => <[k := d]> s
  | _ => s
  end.

Definition run_actions (s : kv_store) (acts : list action) : kv_store :=
  fold_left apply_action acts s.

(** The records written, in order. *)
Definition writes (acts : list action) : list (string * job_dict) :=
  omap (fun a => match a with SetEx k _ d => Some (k, d) | _ => None end) acts.

(** The queue entry built by [RenderManager.submit_render_job]. *)
Definition queue_entry (job_id scad_path fmt : string) : job_dict :=
  <["job_id" := job_id]> (<["scad_path" := scad_path]>
    (<["format" := fmt]> (<["status" := "queued"]> ∅))).

Definition env_all_ok : tool_env :=
  {| env_timeout := 120; env_xvfb := None;
     env_png := Completed 0 ""; env_png_file := true;
     env_stl := Completed 0 ""; env_stl_file := true |}.

(* ------------------------------------------------------------------ *)
(** ** [FileCleanup.cleanup_old_files] *)

Local Open Scope Z_scope.

(** One directory entry as seen by [iterdir()]. *)
Record file_entry := {
  fe_name : string;
  fe_is_file : bool;       (* file_path.is_file() *)
  fe_stat_ok : bool;       (* file_path.stat() succeeds *)
  fe_mtime : Z;            (* st_mtime *)
  fe_size : Z;             (* st_size *)
  fe_unlink_ok : bool      (* file_path.unlink() succeeds *)
}.

Record directory := {
  dir_readable : bool;     (* iterdir() does not raise *)
  dir_entries : list file_entry
}.

(** [settings.DATA_PATH]: whether it exists, and its sub-directories. *)
Record data_root := {
  root_exists : bool;
  root_dirs : gmap string directory
}.

Record cleanup_stats := {
  deleted : Z;
  errors : Z;
  freed_bytes : Z
}.

Definition zero_stats : cleanup_stats :=
  {| deleted := 0; errors := 0; freed_bytes := 0 |}.

(** [directories_to_clean], relative to [data_path]. *)
Definition directories_to_clean : list string := ["scad_files"; "renders"; "logs"].

(** The inner [for file_path in directory.iterdir()] loop: the statistics
    and the entries left on disk. *)
Fixpoint sweep_files (cutoff : Z) (fs : list file_entry) (st : cleanup_stats)
  : cleanup_stats * list file_entry :=
  match fs with
  | [] => (st, [])
  | f :: rest =>
      let '(st, keep) :=
        if negb (fe_is_file f) then (st, true)
        else if negb (fe_stat_ok f) then
          ({| deleted := deleted st; errors := errors st + 1;
              freed_bytes := freed_bytes st |}, true)
        else if Z.ltb (fe_mtime f) cutoff then
          if fe_unlink_ok f then
            ({| deleted := deleted st + 1; errors := errors st;
                freed_bytes := freed_bytes st + fe_size f |}, false)
          else
            ({| deleted := deleted st; errors := errors st + 1;
                freed_bytes := freed_bytes st |}, true)
        else (st, true) in
      let '(st, rest') := sweep_files cutoff rest st in
      (st, if keep then f :: rest' else rest')
  end.

(** The outer [for directory in directories_to_clean] loop. *)
Fixpoint sweep_dirs (cutoff : Z) (names : list string)
    (dirs : gmap string directory) (st : cleanup_stats)
  : cleanup_stats * gmap string directory :=
  match names with
  | [] => (st, dirs)
  | d :: rest =>
      let '(st, dirs) :=
        match dirs !! d with
        | None => (st, dirs)                          (* not directory.exists() *)
        | Some dir =>
            if negb (dir_readable dir) then
              ({| deleted := deleted st; errors := errors st + 1;
                  freed_bytes := freed_bytes st |}, dirs)
            else
              let '(st, kept) := sweep_files cutoff (dir_entries dir) st in
              (st, <[d := {| dir_readable := true; dir_entries := kept |}]> dirs)
        end in
      sweep_dirs cutoff rest dirs st
  end.

(** [cleanup_old_files] with [max_age_hours] and [time.time() = now]. *)
Definition cleanup_old_files (max_age_hours now : Z) (root : data_root)
  : cleanup_stats * data_root :=
  if negb (root_exists root) then (zero_stats, root)
  else
    let cutoff_time := now - max_age_hours * 3600 in
    let '(st, dirs) := sweep_dirs cutoff_time directories_to_clean
                                  (root_dirs root) zero_stats in
    (st, {| root_exists := true; root_dirs := dirs |}).

(* ------------------------------------------------------------------ *)
(** ** [RenderManager] and the queue loop [RenderQueueProcessor.run] *)

(** The Redis state shared by the backend and the render service: the
    key/value records and the list [render_queue] (head = left end). *)
Record redis_state := {
  rd_kv : kv_store;
  rd_queue : list job_dict
}.

(** [redis.lpush('render_queue', entry)]: push at the left end. *)
Definition lpush (e : job_dict) (q : list job_dict) : list job_dict := e :: q.

(** [redis.brpop('render_queue')]: pop the right end, [None] when empty. *)
Definition brpop (q : list job_dict) : option (job_dict * list job_dict) :=
  match rev q with
  | [] => None
  | e :: r => Some (e, rev r)
  end.

(** [str(Path(DATA_PATH) / "scad_files" / f"{job_id}.scad")]. *)
Definition scad_path_of (data_path job_id : string) : string :=
  data_path ++ "/scad_files/" ++ job_id ++ ".scad".

(** [submit_render_job(code, format)] with [uuid4()] returning [job_id]:
    writes the script, pushes the entry, stores the record. [files] maps
    paths to contents. *)
Definition submit_render_job (data_path job_id code fmt : string)
    (r : redis_state) (files : gmap string string)
  : string * redis_state * gmap string string :=
  let scad_path := scad_path_of data_path job_id in
  let files := <[scad_path := code]> files in
  let job_data := queue_entry job_id scad_path fmt in
  let q := lpush job_data (rd_queue r) in
  let kv := <[job_key job_id := job_data]> (rd_kv r) in
  (job_id, {| rd_kv := kv; rd_queue := q |}, files).

(** [if job.get(k): response[k] = job[k]] *)
Definition copy_if_truthy (job : job_dict) (k : string) (resp : job_dict) : job_dict :=
  match job !! k with
  | Some v => if py_truthy v then <[k := v]> resp else resp
  | None => resp
  end.

(** [get_job_status(job_id)]: [inr msg] is the [ValueError]. *)
Definition get_job_status (job_id : string) (kv : kv_store)
  : job_dict + string :=
  match kv !! job_key job_id with
  | None => inr ("Job not found: " ++ job_id)
  | Some job =>
      let response : job_dict :=
        <["job_id" := job_id]>
          (<["status" := default "unknown" (job !! "status")]> ∅) in
      inl (copy_if_truthy job "error"
             (copy_if_truthy job "stl_url"
                (copy_if_truthy job "preview_url" response)))
  end.

(** [update_job_status(job_id, updates)]: read, [job.update(updates)],
    write back. *)
Definition update_job_status (job_id : string) (updates : job_dict) (kv : kv_store)
  : kv_store + string :=
  match kv !! job_key job_id with
  | None => inr ("Job not found: " ++ job_id)
  | Some job => inl (<[job_key job_id := updates ∪ job]> kv)
  end.

(** One iteration of [run()]: pop an entry and process it; an exception of
    [process_job] is caught and logged; an empty pop only sleeps. *)
Definition run_step (E : tool_env) (r : redis_state) : redis_state :=
  match brpop (rd_queue r) with
  | None => r
  | Some (job, q) =>
      match process_job E job with
      | Some acts => {| rd_kv := run_actions (rd_kv r) acts; rd_queue := q |}
      | None => {| rd_kv := rd_kv r; rd_queue := q |}
      end
  end.

(** Iterations of [run()], one outside world per iteration. *)
Fixpoint run_loop (Es : list tool_env) (r : redis_state) : redis_state :=
  match Es with
  | [] => r
  | E :: rest => run_loop rest (run_step E r)
  end.

(** The entries the loop pops, in order, over [n] iterations. *)
Fixpoint pops (n : nat) (q : list job_dict) : list job_dict :=
  match n with
  | O => []
  | S n' => match brpop q with
            | None => []
            | Some (e, q') => e :: pops n' q'
            end
  end.

(* ------------------------------------------------------------------ *)
(** ** Per-file and per-directory outcome of a cleanup sweep *)

(** A file the sweep deletes: a regular file whose [stat()] succeeds, older
    than the cutoff, whose [unlink()] succeeds. *)
Definition swept (c : Z) (f : file_entry) : bool :=
  fe_is_file f && fe_stat_ok f && Z.ltb (fe_mtime f) c && fe_unlink_ok f.

(** A file whose handling raises inside the per-file [try]. *)
Definition sweep_failed (c : Z) (f : file_entry) : bool :=
  fe_is_file f && (negb (fe_stat_ok f) || (Z.ltb (fe_mtime f) c && negb (fe_unlink_ok f))).

Definition count_if {A} (p : A -> bool) (l : list A) : Z := Z.of_nat (length (List.filter p l)).

Definition size_sum (fs : list file_entry) : Z :=
  fold_right (fun f acc => fe_size f + acc) 0 fs.

(** What one entry of [directories_to_clean] adds to the statistics. *)
Definition dir_deleted (c : Z) (o : option directory) : Z :=
  match o with
  | Some d => if dir_readable d then count_if (swept c) (dir_entries d) else 0
  | None => 0
  end.

Definition dir_freed (c : Z) (o : option directory) : Z :=
  match o with
  | Some d => if dir_readable d then size_sum (List.filter (swept c) (dir_entries d)) else 0
  | None => 0
  end.

Definition dir_errors (c : Z) (o : option directory) : Z :=
  match o with
  | Some d => if dir_readable d then count_if (sweep_failed c) (dir_entries d) else 1
  | None => 0
  end.

Fixpoint sum_dirs (f : option directory -> Z) (dirs : gmap string directory)
    (names : list string) : Z :=
  match names with
  | [] => 0
  | d :: rest => f (dirs !! d) + sum_dirs f dirs rest
  end.

(* ------------------------------------------------------------------ *)
(** ** [FileCleanup.get_disk_usage] *)

(** [str.endswith]: the reversed suffix is a prefix of the reversed string. *)
Definition py_endswith (s suffix : string) : bool :=
  String.prefix (py_rev suffix) (py_rev s).

(** A file yielded by [os.walk(data_path)]; [wf_stat] is [None] when
    [file_path.stat()] raises. *)
Record walk_file := {
  wf_name : string;
  wf_stat : option Z
}.

(** [{"count": .., "bytes": ..}] *)
Record usage_bucket := {
  ub_count : Z;
  ub_bytes : Z
}.

Record disk_usage := {
  du_scad : usage_bucket;     (* "scad_files" *)
  du_stl : usage_bucket;      (* "stl_files" *)
  du_png : usage_bucket;      (* "png_files" *)
  du_log : usage_bucket;      (* "log_files" *)
  du_total : Z                (* "total_bytes" *)
}.

Definition bucket0 : usage_bucket := {| ub_count := 0; ub_bytes := 0 |}.

Definition du_zero : disk_usage :=
  {| du_scad := bucket0; du_stl := bucket0; du_png := bucket0; du_log := bucket0;
     du_total := 0 |}.

(** [b["count"] += 1; b["bytes"] += file_size] *)
Definition bump (b : usage_bucket) (sz : Z) : usage_bucket :=
  {| ub_count := ub_count b + 1; ub_bytes := ub_bytes b + sz |}.

(** The body of [for filename in files]. *)
Definition du_step (u : disk_usage) (f : walk_file) : disk_usage :=
  match wf_stat f with
  | None => u                                    (* logged, skipped *)
  | Some sz =>
      let n := wf_name f in
      let u :=
        if py_endswith n ".scad" then
          {| du_scad := bump (du_scad u) sz; du_stl := du_stl u; du_png := du_png u;
             du_log := du_log u; du_total := du_total u |}
        else if py_endswith n ".stl" then
          {| du_scad := du_scad u; du_stl := bump (du_stl u) sz; du_png := du_png u;
             du_log := du_log u; du_total := du_total u |}
        else if py_endswith n ".png" then
          {| du_scad := du_scad u; du_stl := du_stl u; du_png := bump (du_png u) sz;
             du_log := du_log u; du_total := du_total u |}
        else if py_endswith n ".log" then
          {| du_scad := du_scad u; du_stl := du_stl u; du_png := du_png u;
             du_log := bump (du_log u) sz; du_total := du_total u |}
        else u in
      {| du_scad := du_scad u; du_stl := du_stl u; du_png := du_png u;
         du_log := du_log u; du_total := du_total u + sz |}
  end.

(** [get_disk_usage]; [None] is the empty dict returned when the data
    directory does not exist; [files] are the files [os.walk] yields. *)
Definition get_disk_usage (root_exists : bool) (files : list walk_file)
  : option disk_usage :=
  if negb root_exists then None
  else Some (fold_left du_step files du_zero).

(** Sizes of the files whose [stat()] succeeds and whose name satisfies [p]. *)
Fixpoint stat_sizes (p : string -> bool) (fs : list walk_file) : list Z :=
  match fs with
  | [] => []
  | f :: rest =>
      match wf_stat f with
      | Some sz => if p (wf_name f) then sz :: stat_sizes p rest else stat_sizes p rest
      | None => stat_sizes p rest
      end
  end.

Definition zsum (l : list Z) : Z := fold_right Z.add 0 l.

(** The name test of one bucket. *)
Definition ends (suf : string) : string -> bool := fun n => py_endswith n suf.

Definition bucket_of (p : string -> bool) (fs : list walk_file) : usage_bucket :=
  {| ub_count := Z.of_nat (length (stat_sizes p fs));
     ub_bytes := zsum (stat_sizes p fs) |}.

(* ------------------------------------------------------------------ *)
(** ** [SecurityValidator.validate_scad_code] and the render endpoint *)

(** The regular expressions of [validate_scad_code], matched by Brzozowski
    derivatives. [RChar p] is one character satisfying [p]. *)
Inductive regex :=
  | RNone
  | REps
  | RChar (p : ascii -> bool)
  | RSeq (r1 r2 : regex)
  | RAlt (r1 r2 : regex)
  | RStar (r : regex).

Fixpoint nullable (r : regex) : bool :=
  match r with
  | RNone | RChar _ => false
  | REps | RStar _ => true
  | RSeq a b => nullable a && nullable b
  | RAlt a b => nullable a || nullable b
  end.

Fixpoint deriv (c : ascii) (r : regex) : regex :=
  match r with
  | RNone | REps => RNone
  | RChar p => if p c then REps else RNone
  | RSeq a b =>
      if nullable a then RAlt (RSeq (deriv c a) b) (deriv c b)
      else RSeq (deriv c a) b
  | RAlt a b => RAlt (deriv c a) (deriv c b)
  | RStar a => RSeq (deriv c a) (RStar a)
  end.

(** Whole-string match. *)
Fixpoint re_matches (r : regex) (s : string) : bool :=
  match s with
  | EmptyString => nullable r
  | String c s' => re_matches (deriv c r) s'
  end.

Definition re_any : regex := RChar (fun _ => true).

(** [re.search(pattern, s)]: some substring matches. *)
Definition re_search (r : regex) (s : string) : bool :=
  re_matches (RSeq (RStar re_any) (RSeq r (RStar re_any))) s.

(** A literal. *)
Fixpoint re_lit (s : string) : regex :=
  match s with
  | EmptyString => REps
  | String c s' => RSeq (RChar (fun x => Ascii.eqb x c)) (re_lit s')
  end.

Definition not_newline (x : ascii) : bool := negb (Ascii.eqb x (ascii_of_nat 10)).

(** [.] without [re.DOTALL]: any character but a newline. *)
Definition re_dot : regex := RChar not_newline.

(** [\s] *)
Definition re_space : regex := RChar py_isspace.

(** [<kw>\s*<.*\.\./.*>] *)
Definition traversal_pattern (kw : string) : regex :=
  RSeq (re_lit kw)
    (RSeq (RStar re_space)
      (RSeq (re_lit "<")
        (RSeq (RStar re_dot)
          (RSeq (re_lit "../")
            (RSeq (RStar re_dot) (re_lit ">")))))).

Definition dangerous_patterns : list (regex * string) :=
  [(traversal_pattern "import", "Path traversal in import statement");
   (traversal_pattern "use", "Path traversal in use statement")].

(** [validate_scad_code(code)] with [settings.MAX_CODE_SIZE = max_code_size]. *)
Definition validate_scad_code (max_code_size : Z) (code : string)
  : bool * list string :=
  let errors :=
    fold_left (fun errs '(pat, msg) =>
                 if re_search pat code then app errs [msg] else errs)
              dangerous_patterns [] in
  let errors :=
    if Z.ltb max_code_size (Z.of_nat (String.length code))
    then app errors ["Code exceeds size limit (" ++ py_str_int max_code_size ++ " bytes)"]
    else errors in
  let errors :=
    if negb (py_truthy (py_strip code)) then app errors ["Code cannot be empty"]
    else errors in
  (Nat.eqb (length errors) 0, errors).

(** The answer of an endpoint: a response body or an [HTTPException]. *)
Inductive http_result :=
  | HttpOk (body : job_dict)
  | HttpError (status_code : Z) (detail : string).

(** [POST /api/v1/render/]: validate, then [render_manager.submit_render_job]. *)
Definition api_submit_render (max_code_size : Z) (data_path job_id code fmt : string)
    (r : redis_state) (files : gmap string string)
  : http_result * redis_state * gmap string string :=
  let '(is_valid, errors) := validate_scad_code max_code_size code in
  if negb is_valid then
    (HttpError 400 ("Code validation failed: " ++ py_join ", " errors), r, files)
  else
    let '(jid, r', files') := submit_render_job data_path job_id code fmt r files in
    (HttpOk (<["job_id" := jid]> (<["status" := "queued"]> ∅)), r', files').

(** The language of a [regex], for reasoning about [re_matches]. *)
Inductive in_re : regex -> string -> Prop :=
  | in_eps : in_re REps ""
  | in_char (p : ascii -> bool) (c : ascii) : p c = true -> in_re (RChar p) (String c "")
  | in_seq a b s1 s2 : in_re a s1 -> in_re b s2 -> in_re (RSeq a b) (s1 ++ s2)
  | in_altl a b s : in_re a s -> in_re (RAlt a b) s
  | in_altr a b s : in_re b s -> in_re (RAlt a b) s
  | in_star0 a : in_re (RStar a) ""
  | in_starS a s1 s2 : in_re a s1 -> in_re (RStar a) s2 -> in_re (RStar a) (s1 ++ s2).

(** [needle in hay]. *)
Fixpoint str_contains (needle hay : string) : bool :=
  String.prefix needle hay ||
  match hay with
  | EmptyString => false
  | String _ rest => str_contains needle rest
  end.

(** Every character of [s] satisfies [p]. *)
Fixpoint str_forall (p : ascii -> bool) (s : string) : bool :=
  match s with
  | EmptyString => true
  | String c s' => p c && str_forall p s'
  end.

(* ------------------------------------------------------------------ *)
(** ** Auxiliary definitions for the properties *)

(** Success of a render: the first component of its result. *)
Definition render_ok (r : render_result * list proc_event) : bool := fst (fst r).

Definition contains (needle hay : string) : Prop :=
  exists pre post, hay = pre ++ needle ++ post.

Definition png_result (E : tool_env) : render_result :=
  fst (render_png (env_timeout E) (env_xvfb E) (env_png E) (env_png_file E)).

Definition stl_result (E : tool_env) : render_result :=
  fst (render_stl (env_timeout E) (env_stl E) (env_stl_file E)).

Definition nonempty (s : string) : Prop := s <> "".

(** The error a sub-render contributes to [errors]. *)
Definition sub_errors (prefix : string) (r : render_result) : list string :=
  if fst r then []
  else match snd r with
       | Some e => if py_truthy e then [prefix ++ e] else []
       | None => []
       end.

Definition stl_requested (job : job_dict) : bool :=
  match job !! "format" with
  | Some fmt => String.eqb fmt "stl" || String.eqb fmt "both"
  | None => false
  end.

Definition job_errors (E : tool_env) (job : job_dict) : list string :=
  app (sub_errors "Preview: " (png_result E))
      (if stl_requested job then sub_errors "STL: " (stl_result E) else []).

(** The last record written. *)
Definition last_write (acts : list action) : option job_dict :=
  snd <$> last (writes acts).

Definition stored_status (s : kv_store) (k : string) : option string :=
  s !! k ≫= fun d => d !! "status".

(** The outside world of the examples below. *)
Definition env_of (png stl : run_outcome) : tool_env :=
  {| env_timeout := 120; env_xvfb := None;
     env_png := png; env_png_file := true;
     env_stl := stl; env_stl_file := true |}.

Definition lf : string := String (Ascii.ascii_of_nat 10) EmptyString.

(** An entry a sweep with cutoff [c] leaves alone. *)
Definition clean_entry (c : Z) (f : file_entry) : Prop :=
  fe_is_file f = false \/ fe_stat_ok f = false \/ c <= fe_mtime f \/
  fe_unlink_ok f = false.

Definition clean_dir (c : Z) (o : option directory) : Prop :=
  match o with
  | None => True
  | Some dir => dir_readable dir = false \/ Forall (clean_entry c) (dir_entries dir)
  end.

Definition old_file (name : string) (mtime size : Z) : file_entry :=
  {| fe_name := name; fe_is_file := true; fe_stat_ok := true;
     fe_mtime := mtime; fe_size := size; fe_unlink_ok := true |}.

(** A data directory with a day-old preview and a day-old STL export. *)
Definition root_old_artifacts : data_root :=
  {| root_exists := true;
     root_dirs :=
       <["renders" := {| dir_readable := true;
                         dir_entries := [old_file "j.png" 0 2048] |}]>
       (<["exports" := {| dir_readable := true;
                          dir_entries := [old_file "j.stl" 0 4096] |}]> ∅) |}.

(* ------------------------------------------------------------------ *)
(** ** Sanity checks on small inputs *)

Example process_job_both_ok :
  option_map (fun acts => (fst <$> writes acts, (fun w => snd w !! "status") <$> writes acts))
    (process_job env_all_ok (queue_entry "j" "/d/j.scad" "both"))
  = Some (["job:j"; "job:j"], [Some "processing"; Some "completed"]).
Proof. reflexivity. Qed.

Example render_png_timeout_msg :
  fst (render_png 120 None TimedOut false)
  = (false, Some "Rendering timeout (120s exceeded)").
Proof. reflexivity. Qed.

Example py_strip_ex : py_strip "  err
" = "err".
Proof. reflexivity. Qed.

(* ================================================================== *)
(** * Properties *)

(** ** The renderer *)

(** C5: whenever [render_png] starts Xvfb, its trace starts with the
    Xvfb start, has no other start, and ends with [xvfb.terminate()] and
    [xvfb.wait()], whatever [subprocess.run] does (normal exit with any
    return code and any output file, timeout, other exception); when
    Xvfb cannot be started nothing is started. No Xvfb is left alive. *)
Theorem render_png_releases_xvfb (timeout : Z) (xvfb : option string)
    (o : run_outcome) (output_exists : bool) :
  fst (live_after (snd (render_png timeout xvfb o output_exists))) = false /\
  match xvfb with
  | None =>
      exists mid,
        snd (render_png timeout xvfb o output_exists)
          = (XvfbStarted :: mid ++ [XvfbTerminated; XvfbReaped])%list
        /\ ~ In XvfbStarted mid
  | Some _ => snd (render_png timeout xvfb o output_exists) = []
  end.
Proof.
  destruct xvfb as [m|]; [split; reflexivity |].
  destruct o as [rc err| |m]; cbn; split; try reflexivity;
    [exists [ToolSpawned; ToolExited] | exists [ToolSpawned; ToolKilled; ToolExited]
    | exists []]; split; try reflexivity; cbn; intros H;
    repeat (destruct H as [H|H]; [discriminate|]); exact H.
Qed.

(** C6: when the tool runs past the timeout, [render_png] (with Xvfb
    started) and [render_stl] return a failure whose reason mentions the
    timeout, and neither the tool nor Xvfb is alive afterwards (the tool
    was killed). *)
Theorem render_timeout_is_failure (timeout : Z) (output_exists : bool) :
  (exists msg,
     fst (render_png timeout None TimedOut output_exists) = (false, Some msg)
     /\ contains "timeout" msg) /\
  live_after (snd (render_png timeout None TimedOut output_exists)) = (false, false) /\
  In ToolKilled (snd (render_png timeout None TimedOut output_exists)) /\
  (exists msg,
     fst (render_stl timeout TimedOut output_exists) = (false, Some msg)
     /\ contains "timeout" msg) /\
  live_after (snd (render_stl timeout TimedOut output_exists)) = (false, false) /\
  In ToolKilled (snd (render_stl timeout TimedOut output_exists)).
Proof.
  split; [|split; [|split; [|split; [|split]]]].
  - eexists; split; [reflexivity|].
    exists "Rendering ", (" (" ++ py_str_int timeout ++ "s exceeded)"). reflexivity.
  - reflexivity.
  - cbn; tauto.
  - eexists; split; [reflexivity|].
    exists "STL rendering ", (" (" ++ py_str_int timeout ++ "s exceeded)"). reflexivity.
  - reflexivity.
  - cbn; tauto.
Qed.

(** C7: a zero exit code without the output file is a failure saying the
    output was not created, and a render succeeds exactly when the tool
    exited with code 0 and the output file exists (for the preview, Xvfb
    must also have started). *)
Theorem render_checks_output_file (timeout : Z) (xvfb : option string)
    (o : run_outcome) (output_exists : bool) (stderr : string) :
  fst (render_png timeout None (Completed 0 stderr) false)
    = (false, Some "Preview image not created") /\
  fst (render_stl timeout (Completed 0 stderr) false)
    = (false, Some "STL file not created") /\
  render_ok (render_png timeout xvfb o output_exists)
    = match xvfb, o with
      | None, Completed rc _ => Z.eqb rc 0 && output_exists
      | _, _ => false
      end /\
  render_ok (render_stl timeout o output_exists)
    = match o with
      | Completed rc _ => Z.eqb rc 0 && output_exists
      | _ => false
      end.
Proof.
  repeat split; try reflexivity;
  destruct xvfb; destruct o as [rc err| |m]; try reflexivity; cbn;
    unfold png_checks, stl_checks;
    destruct (Z.eqb rc 0), output_exists; reflexivity.
Qed.

(** ** The queue processor *)

Lemma py_join_nonempty sep errs :
  Forall nonempty errs -> errs <> [] -> nonempty (py_join sep errs).
Proof.
  intros Hall Hne. destruct errs as [|x [|y rest]]; [congruence| |];
    inversion Hall as [|? ? Hx _]; subst; cbn; [exact Hx|].
  destruct x; [congruence|]. discriminate.
Qed.

Lemma sub_errors_nonempty prefix r :
  prefix <> "" -> Forall nonempty (sub_errors prefix r).
Proof.
  intros Hp. unfold sub_errors. destruct r as [[] [e|]]; cbn; try constructor.
  destruct (py_truthy e); constructor; [|constructor].
  destruct prefix; [congruence|]. discriminate.
Qed.

Lemma job_errors_nonempty E job : Forall nonempty (job_errors E job).
Proof.
  unfold job_errors. apply Forall_app; split;
    [|destruct (stl_requested job)]; try apply sub_errors_nonempty; try constructor;
    discriminate.
Qed.

Lemma insert_lookup_other (m : job_dict) (k k' v : string) :
  k <> k' -> <[k := v]> m !! k' = m !! k'.
Proof. intros H. by apply lookup_insert_ne. Qed.

Ltac lookup_simpl :=
  repeat first [ rewrite lookup_insert_eq
               | rewrite insert_lookup_other by congruence ];
  try reflexivity.

Lemma process_job_spec (E : tool_env) (job : job_dict) (id sp : string) :
  job !! "job_id" = Some id -> job !! "scad_path" = Some sp ->
  exists fin,
  process_job E job
    = Some ([SetEx (job_key id) 3600 (<["status" := "processing"]> job);
             CallPng (snd (render_png (env_timeout E) (env_xvfb E) (env_png E) (env_png_file E)))]
            ++ (if stl_requested job
                then [CallStl (snd (render_stl (env_timeout E) (env_stl E) (env_stl_file E)))]
                else [])
            ++ [SetEx (job_key id) 3600 fin])%list /\
  (forall f, f <> "status" -> f <> "preview_url" -> f <> "stl_url" -> f <> "error" ->
     fin !! f = job !! f) /\
  fin !! "preview_url"
    = (if fst (png_result E) then Some ("/api/v1/render/" ++ id ++ "/preview")
       else job !! "preview_url") /\
  fin !! "stl_url"
    = (if stl_requested job && fst (stl_result E)
       then Some ("/api/v1/render/" ++ id ++ "/download")
       else job !! "stl_url") /\
  fin !! "status"
    = Some (match job !! "format", job_errors E job with
            | Some _, [] => "completed"
            | _, _ => "failed"
            end) /\
  fin !! "error"
    = match job !! "format", job_errors E job with
      | None, _ => Some "'format'"
      | Some _, [] => job !! "error"
      | Some _, errs => Some (py_join "; " errs)
      end.
Proof.
  intros Hid Hsp. unfold process_job, job_errors, stl_requested, png_result, stl_result.
  rewrite Hid, Hsp.
  destruct (render_png _ _ _ _) as [[okp ep] trp].
  destruct (render_stl _ _ _) as [[oks es] trs].
  unfold record_outcome.
  destruct okp; [| destruct ep as [e|]; [destruct (py_truthy e) eqn:Ht|]];
  cbn [fst snd];
  rewrite ?insert_lookup_other by discriminate;
  destruct (job !! "format") as [fmt|] eqn:Hf.
  all: try (destruct ((fmt =? "stl")%string || (fmt =? "both")%string));
  try (destruct oks; [| destruct es as [e'|]; [destruct (py_truthy e') eqn:Ht'|]]);
  cbn [fst snd sub_errors andb app py_truthy_opt]; rewrite ?Ht, ?Ht'.
  all: eexists; split; [reflexivity|].
  all: split; [intros f H1 H2 H3 H4; rewrite !insert_lookup_other by congruence;
               reflexivity|].
  all: repeat split; lookup_simpl.
Qed.

Lemma writes_spec (E : tool_env) (job : job_dict) (id sp : string) :
  job !! "job_id" = Some id -> job !! "scad_path" = Some sp ->
  exists acts fin, process_job E job = Some acts /\
    writes acts = [(job_key id, <["status" := "processing"]> job); (job_key id, fin)] /\
    (forall f, f <> "status" -> f <> "preview_url" -> f <> "stl_url" -> f <> "error" ->
       fin !! f = job !! f) /\
    (fin !! "status" = Some "completed" \/
     (fin !! "status" = Some "failed" /\ exists e, fin !! "error" = Some e /\ e <> "")) /\
    (forall s : kv_store, run_actions s acts !! job_key id = Some fin) /\
    (forall s : kv_store, run_actions s (take 1 acts) !! job_key id
                          = Some (<["status" := "processing"]> job)) /\
    head acts = Some (SetEx (job_key id) 3600 (<["status" := "processing"]> job)).
Proof.
  intros Hid Hsp.
  destruct (process_job_spec E job id sp Hid Hsp)
    as [fin [Hp [Hother [_ [_ [Hstatus Herror]]]]]].
  rewrite Hp. eexists _, fin; split; [reflexivity|].
  repeat split.
  - destruct (stl_requested job); reflexivity.
  - exact Hother.
  - rewrite Hstatus, Herror.
    destruct (job !! "format"); [destruct (job_errors E job) as [|x xs] eqn:Hx|].
    + left; reflexivity.
    + right; split; [reflexivity|]. eexists; split; [reflexivity|].
      apply py_join_nonempty; [|discriminate]. rewrite <- Hx.
      apply job_errors_nonempty.
    + right; split; [reflexivity|]. eexists; split; [reflexivity|]. discriminate.
  - intros s. unfold run_actions.
    destruct (stl_requested job); cbn; apply lookup_insert_eq.
  - intros s. cbn. apply lookup_insert_eq.
Qed.

(** C1 (code bug): a job submitted with format [stl] still runs the
    preview render, and a preview failure makes it fail although its STL
    render succeeded. *)
Lemma stl_job_runs_preview :
  exists acts fin,
    process_job (env_of (Completed 1 "boom") (Completed 0 ""))
                (queue_entry "j" "/data/scad_files/j.scad" "stl") = Some acts /\
    acts !! 1%nat = Some (CallPng [XvfbStarted; ToolSpawned; ToolExited;
                                   XvfbTerminated; XvfbReaped]) /\
    fst (stl_result (env_of (Completed 1 "boom") (Completed 0 ""))) = true /\
    last_write acts = Some fin /\
    fin !! "status" = Some "failed" /\
    fin !! "error" = Some "Preview: boom".
Proof. do 2 eexists; repeat split; reflexivity. Qed.

(** C3 (as stated, refuted): the processor does not look at the stored
    record, so a redelivered entry of a job whose record already says
    [completed] moves it back to [processing]. *)
Lemma redelivery_moves_status_back :
  exists acts,
    process_job env_all_ok (queue_entry "j" "/data/scad_files/j.scad" "both")
      = Some acts /\
    stored_status {[ "job:j" := <["status" := "completed"]>
                                  (queue_entry "j" "/data/scad_files/j.scad" "both") ]}
                  "job:j" = Some "completed" /\
    stored_status (run_actions
                     {[ "job:j" := <["status" := "completed"]>
                                     (queue_entry "j" "/data/scad_files/j.scad" "both") ]}
                     (take 1 acts))
                  "job:j" = Some "processing".
Proof. eexists; repeat split; reflexivity. Qed.

(** C3 (amended): for an entry with [job_id] and [scad_path], the first
    effect of [process_job] is the write of status [processing] (before
    any render), the only other write is its last effect and carries
    [completed] or [failed]; [queued] is never written. From the record
    created at submission (status [queued]) the stored status therefore
    goes queued, processing, then completed or failed. *)
Theorem process_job_status_edges (E : tool_env) (job : job_dict) (id sp : string)
    (Hid : job !! "job_id" = Some id) (Hsp : job !! "scad_path" = Some sp) :
  exists acts final,
    process_job E job = Some acts /\
    head acts = Some (SetEx (job_key id) 3600 (<["status" := "processing"]> job)) /\
    (fun w : string * job_dict => snd w !! "status") <$> writes acts
      = [Some "processing"; Some final] /\
    (final = "completed" \/ final = "failed") /\
    (exists fin, last acts = Some (SetEx (job_key id) 3600 fin) /\
                 fin !! "status" = Some final) /\
    (forall s : kv_store, stored_status s (job_key id) = Some "queued" ->
       [stored_status s (job_key id);
        stored_status (run_actions s (take 1 acts)) (job_key id);
        stored_status (run_actions s acts) (job_key id)]
       = [Some "queued"; Some "processing"; Some final]).
Proof.
  destruct (writes_spec E job id sp Hid Hsp)
    as [acts [fin [Hp [Hw [_ [Hst [Hrun [Hrun1 Hhead]]]]]]]].
  destruct (process_job_spec E job id sp Hid Hsp) as [fin' [Hp' _]].
  rewrite Hp in Hp'. injection Hp' as Hacts.
  assert (Hfin : exists final, fin !! "status" = Some final /\
                               (final = "completed" \/ final = "failed"))
    by (destruct Hst as [H|[H _]]; eexists; split; [exact H| |exact H|]; auto).
  destruct Hfin as [final [Hfinal Hcases]].
  exists acts, final. split; [exact Hp|]. split; [exact Hhead|].
  split; [|split; [exact Hcases|split]].
  - rewrite Hw. cbn. rewrite lookup_insert_eq, Hfinal. reflexivity.
  - exists fin'. split.
    + rewrite Hacts. destruct (stl_requested job); reflexivity.
    + assert (Heq : Some fin' = Some fin).
      { rewrite <- (Hrun ∅), Hacts. unfold run_actions.
        destruct (stl_requested job); cbn; rewrite lookup_insert_eq; reflexivity. }
      injection Heq as ->. exact Hfinal.
  - intros s Hq. unfold stored_status in *. rewrite Hq, Hrun1, Hrun. cbn.
    rewrite lookup_insert_eq, Hfinal. reflexivity.
Qed.

Lemma process_job_status_edges_witness :
  exists acts final,
    process_job env_all_ok (queue_entry "j" "/data/scad_files/j.scad" "both") = Some acts /\
    head acts = Some (SetEx (job_key "j") 3600
                        (<["status" := "processing"]>
                           (queue_entry "j" "/data/scad_files/j.scad" "both"))) /\
    (fun w : string * job_dict => snd w !! "status") <$> writes acts
      = [Some "processing"; Some final] /\
    (final = "completed" \/ final = "failed") /\
    (exists fin, last acts = Some (SetEx (job_key "j") 3600 fin) /\
                 fin !! "status" = Some final) /\
    (forall s : kv_store, stored_status s (job_key "j") = Some "queued" ->
       [stored_status s (job_key "j");
        stored_status (run_actions s (take 1 acts)) (job_key "j");
        stored_status (run_actions s acts) (job_key "j")]
       = [Some "queued"; Some "processing"; Some final]).
Proof.
  apply (process_job_status_edges env_all_ok
           (queue_entry "j" "/data/scad_files/j.scad" "both")
           "j" "/data/scad_files/j.scad"); reflexivity.
Defined.

(** C4: every write of [process_job] stores, under [job:{job_id}], the
    in-memory dictionary built from the dequeued entry: the stored record
    after the run is that dictionary whatever the store held before (the
    processor never reads it), fields other than status, preview_url,
    stl_url and error are exactly those of the entry (a field only in the
    stored record is dropped), and the first write sets the status to
    processing whatever it was, also completed or failed for a
    redelivered entry. *)
Theorem process_job_replaces_record (E : tool_env) (job : job_dict) (id sp : string)
    (Hid : job !! "job_id" = Some id) (Hsp : job !! "scad_path" = Some sp) :
  exists acts fin,
    process_job E job = Some acts /\
    writes acts = [(job_key id, <["status" := "processing"]> job); (job_key id, fin)] /\
    (forall f, f <> "status" -> f <> "preview_url" -> f <> "stl_url" -> f <> "error" ->
       fin !! f = job !! f) /\
    (forall s : kv_store, run_actions s acts !! job_key id = Some fin) /\
    (forall (s : kv_store) (old : job_dict) (f : string),
       s !! job_key id = Some old -> job !! f = None ->
       f <> "status" -> f <> "preview_url" -> f <> "stl_url" -> f <> "error" ->
       run_actions s acts !! job_key id ≫= (fun d => d !! f) = None) /\
    (forall s : kv_store,
       stored_status (run_actions s (take 1 acts)) (job_key id) = Some "processing").
Proof.
  destruct (writes_spec E job id sp Hid Hsp)
    as [acts [fin [Hp [Hw [Hother [_ [Hrun [Hrun1 _]]]]]]]].
  exists acts, fin. repeat split; try assumption.
  - intros s old f _ Hnone H1 H2 H3 H4. rewrite Hrun. cbn.
    rewrite Hother; assumption.
  - intros s. unfold stored_status. rewrite Hrun1. cbn. apply lookup_insert_eq.
Qed.

Lemma process_job_replaces_record_witness :
  exists acts fin,
    process_job env_all_ok (queue_entry "j" "/data/scad_files/j.scad" "png") = Some acts /\
    writes acts = [(job_key "j", <["status" := "processing"]>
                                   (queue_entry "j" "/data/scad_files/j.scad" "png"));
                   (job_key "j", fin)] /\
    (forall f, f <> "status" -> f <> "preview_url" -> f <> "stl_url" -> f <> "error" ->
       fin !! f = queue_entry "j" "/data/scad_files/j.scad" "png" !! f) /\
    (forall s : kv_store, run_actions s acts !! job_key "j" = Some fin) /\
    (forall (s : kv_store) (old : job_dict) (f : string),
       s !! job_key "j" = Some old ->
       queue_entry "j" "/data/scad_files/j.scad" "png" !! f = None ->
       f <> "status" -> f <> "preview_url" -> f <> "stl_url" -> f <> "error" ->
       run_actions s acts !! job_key "j" ≫= (fun d => d !! f) = None) /\
    (forall s : kv_store,
       stored_status (run_actions s (take 1 acts)) (job_key "j") = Some "processing").
Proof.
  apply (process_job_replaces_record env_all_ok
           (queue_entry "j" "/data/scad_files/j.scad" "png")
           "j" "/data/scad_files/j.scad"); reflexivity.
Defined.

(** C8 (code defect): a preview render that exits non-zero with only
    whitespace on stderr returns the failure reason [""] ([strip()] runs
    after the truthiness test), [process_job] drops it ([elif
    preview_error]) and the job, format [both], ends [completed] with no
    error although its preview failed. *)
Lemma blank_stderr_failure_completes :
  exists acts fin,
    png_result (env_of (Completed 1 lf) (Completed 0 "")) = (false, Some "") /\
    process_job (env_of (Completed 1 lf) (Completed 0 ""))
                (queue_entry "j" "/data/scad_files/j.scad" "both") = Some acts /\
    last_write acts = Some fin /\
    fin !! "status" = Some "completed" /\
    fin !! "error" = None /\
    fin !! "preview_url" = None.
Proof. do 2 eexists; repeat split; reflexivity. Qed.

(** C9: every record [process_job] writes with status [failed] carries a
    non-empty [error]; the record written at submission has status
    [queued]. *)
Theorem failed_record_has_error (E : tool_env) (job : job_dict) (acts : list action)
    (Hrun : process_job E job = Some acts) :
  Forall (fun w : string * job_dict =>
            snd w !! "status" = Some "failed" ->
            exists e, snd w !! "error" = Some e /\ e <> "") (writes acts) /\
  (forall id sp fmt, queue_entry id sp fmt !! "status" = Some "queued").
Proof.
  split; [|intros; reflexivity].
  destruct (job !! "job_id") as [id|] eqn:Hid;
    [|unfold process_job in Hrun; rewrite Hid in Hrun; discriminate].
  destruct (job !! "scad_path") as [sp|] eqn:Hsp;
    [|unfold process_job in Hrun; rewrite Hid, Hsp in Hrun; discriminate].
  destruct (writes_spec E job id sp Hid Hsp)
    as [acts' [fin [Hp [Hw [_ [Hst _]]]]]].
  rewrite Hrun in Hp. injection Hp as <-. rewrite Hw.
  constructor; [|constructor; [|constructor]]; cbn.
  - rewrite lookup_insert_eq. discriminate.
  - intros Hf. destruct Hst as [Hc|[_ He]]; [congruence|exact He].
Qed.

Lemma failed_record_has_error_witness :
  exists acts,
    process_job (env_of (Completed 1 "boom") (Completed 0 ""))
                (queue_entry "j" "/data/scad_files/j.scad" "png") = Some acts /\
    Forall (fun w : string * job_dict =>
              snd w !! "status" = Some "failed" ->
              exists e, snd w !! "error" = Some e /\ e <> "") (writes acts) /\
    (forall id sp fmt, queue_entry id sp fmt !! "status" = Some "queued").
Proof.
  eexists; split; [reflexivity|].
  apply (failed_record_has_error (env_of (Completed 1 "boom") (Completed 0 ""))
           (queue_entry "j" "/data/scad_files/j.scad" "png")). reflexivity.
Defined.

(** ** The cleanup sweep *)

Lemma sweep_files_clean c fs st :
  Forall (clean_entry c) (snd (sweep_files c fs st)).
Proof.
  revert st. induction fs as [|f rest IH]; intros st; cbn; [constructor|].
  destruct (fe_is_file f) eqn:Hfile; cbn.
  2: { destruct (sweep_files c rest st) as [st' kept] eqn:Hs. cbn.
       constructor; [left; exact Hfile|]. specialize (IH st). rewrite Hs in IH. exact IH. }
  destruct (fe_stat_ok f) eqn:Hstat; cbn.
  2: { match goal with |- context [sweep_files c rest ?s] =>
         specialize (IH s); destruct (sweep_files c rest s) as [st' kept] end.
       constructor; [right; left; exact Hstat|exact IH]. }
  destruct (Z.ltb_spec (fe_mtime f) c); cbn.
  - destruct (fe_unlink_ok f) eqn:Hun; cbn;
      match goal with |- context [sweep_files c rest ?s] =>
        specialize (IH s); destruct (sweep_files c rest s) as [st' kept] end;
      [exact IH|]. constructor; [right; right; right; exact Hun|exact IH].
  - destruct (sweep_files c rest st) as [st' kept] eqn:Hs. specialize (IH st).
    rewrite Hs in IH. constructor; [right; right; left; lia|exact IH].
Qed.

(** Closes a case of [sweep_files] in which the head entry is kept. *)
Ltac keep_rest IH :=
  match goal with |- context [sweep_files _ _ ?s] =>
    specialize (IH s); destruct (sweep_files _ _ s) as [st' kept];
    cbn in IH |- *; destruct IH as [-> [H1 H2]]; repeat split; assumption
  end.

Lemma sweep_files_nothing_old c1 c2 fs st :
  c2 <= c1 -> Forall (clean_entry c1) fs ->
  snd (sweep_files c2 fs st) = fs /\
  deleted (fst (sweep_files c2 fs st)) = deleted st /\
  freed_bytes (fst (sweep_files c2 fs st)) = freed_bytes st.
Proof.
  intros Hc Hall. revert st. induction Hall as [|f rest Hf Hrest IH]; intros st;
    [repeat split|]. cbn.
  destruct (fe_is_file f) eqn:Hfile; cbn; [|keep_rest IH].
  destruct (fe_stat_ok f) eqn:Hstat; cbn; [|keep_rest IH].
  destruct (Z.ltb_spec (fe_mtime f) c2) as [Hlt|Hge]; cbn; [|keep_rest IH].
  destruct (fe_unlink_ok f) eqn:Hun; cbn; [|keep_rest IH].
  exfalso. destruct Hf as [H|[H|[H|H]]]; congruence || lia.
Qed.

Lemma sweep_dirs_other c names dirs st d :
  ~ In d names -> snd (sweep_dirs c names dirs st) !! d = dirs !! d.
Proof.
  revert dirs st. induction names as [|d0 rest IH]; intros dirs st Hnin; [reflexivity|].
  cbn. assert (Hne : d0 <> d) by (intros ->; apply Hnin; left; reflexivity).
  assert (Hr : ~ In d rest) by (intros H; apply Hnin; right; exact H).
  destruct (dirs !! d0) as [dir|]; [|apply IH; exact Hr].
  destruct (dir_readable dir); cbn; [|apply IH; exact Hr].
  destruct (sweep_files c (dir_entries dir) st) as [st' kept].
  rewrite IH by exact Hr. apply lookup_insert_ne. exact Hne.
Qed.

Lemma sweep_dirs_clean_pres c names dirs st d :
  clean_dir c (dirs !! d) -> clean_dir c (snd (sweep_dirs c names dirs st) !! d).
Proof.
  revert dirs st. induction names as [|d0 rest IH]; intros dirs st Hd; [exact Hd|].
  cbn. destruct (dirs !! d0) as [dir|] eqn:Hd0; [|apply IH; exact Hd].
  destruct (dir_readable dir); cbn; [|apply IH; exact Hd].
  pose proof (sweep_files_clean c (dir_entries dir) st) as Hclean.
  destruct (sweep_files c (dir_entries dir) st) as [st' kept]. apply IH.
  destruct (decide (d0 = d)) as [<-|Hne].
  - rewrite lookup_insert_eq. right. exact Hclean.
  - rewrite lookup_insert_ne by exact Hne. exact Hd.
Qed.

Lemma sweep_dirs_clean c names dirs st d :
  In d names -> clean_dir c (snd (sweep_dirs c names dirs st) !! d).
Proof.
  revert dirs st. induction names as [|d0 rest IH]; intros dirs st Hin; [destruct Hin|].
  destruct (in_dec string_dec d rest) as [Hr|Hr]; [cbn; destruct (dirs !! d0) as [dir|];
    [destruct (dir_readable dir); [destruct (sweep_files c (dir_entries dir) st)|]|];
    apply IH; exact Hr|].
  destruct Hin as [<-|Hin]; [|contradiction]. cbn.
  destruct (dirs !! d0) as [dir|] eqn:Hd0.
  - destruct (dir_readable dir) eqn:Hread; cbn.
    + pose proof (sweep_files_clean c (dir_entries dir) st) as Hclean.
      destruct (sweep_files c (dir_entries dir) st) as [st' kept].
      apply sweep_dirs_clean_pres. rewrite lookup_insert_eq. right. exact Hclean.
    + apply sweep_dirs_clean_pres. rewrite Hd0. left. exact Hread.
  - apply sweep_dirs_clean_pres. rewrite Hd0. exact I.
Qed.

Lemma sweep_dirs_nothing_old c1 c2 names dirs st :
  c2 <= c1 -> (forall d, In d names -> clean_dir c1 (dirs !! d)) ->
  deleted (fst (sweep_dirs c2 names dirs st)) = deleted st /\
  freed_bytes (fst (sweep_dirs c2 names dirs st)) = freed_bytes st.
Proof.
  intros Hc. revert dirs st. induction names as [|d0 rest IH]; intros dirs st Hall;
    [split; reflexivity|].
  cbn. assert (Hrest : forall d, In d rest -> clean_dir c1 (dirs !! d))
    by (intros d Hd; apply Hall; right; exact Hd).
  specialize (Hall d0 (or_introl eq_refl)).
  destruct (dirs !! d0) as [dir|] eqn:Hd0; [|apply IH; exact Hrest].
  destruct (dir_readable dir) eqn:Hread; cbn.
  - destruct Hall as [Hf|Hclean]; [congruence|].
    destruct (sweep_files_nothing_old c1 c2 (dir_entries dir) st Hc Hclean)
      as [Hkept [Hdel Hfreed]].
    destruct (sweep_files c2 (dir_entries dir) st) as [st' kept]. cbn in *.
    subst kept. rewrite <- Hdel, <- Hfreed. apply IH.
    intros d Hd. destruct (decide (d0 = d)) as [<-|Hne].
    + rewrite lookup_insert_eq. right. exact Hclean.
    + rewrite lookup_insert_ne by exact Hne. apply Hrest. exact Hd.
  - match goal with |- context [sweep_dirs c2 rest dirs ?s] =>
      destruct (IH dirs s Hrest) as [H1 H2] end.
    rewrite H1, H2. split; reflexivity.
Qed.

Lemma cleanup_old_files_eq max_age_hours now root :
  root_exists root = true ->
  cleanup_old_files max_age_hours now root
  = (fst (sweep_dirs (now - max_age_hours * 3600) directories_to_clean
            (root_dirs root) zero_stats),
     {| root_exists := true;
        root_dirs := snd (sweep_dirs (now - max_age_hours * 3600) directories_to_clean
                            (root_dirs root) zero_stats) |}).
Proof.
  intros Hex. unfold cleanup_old_files. rewrite Hex. cbn [negb].
  destruct (sweep_dirs _ _ _ _); reflexivity.
Qed.

(** C2 (code defect): the sweep visits [scad_files], [renders] and
    [logs] only; the [exports] directory, where the render service
    writes STL files, is never examined, so an STL file far older than
    the retention age survives every sweep. *)
Theorem cleanup_never_sweeps_exports (max_age_hours now : Z) (root : data_root) :
  root_dirs (snd (cleanup_old_files max_age_hours now root)) !! "exports"
    = root_dirs root !! "exports" /\
  fst (cleanup_old_files 24 (48 * 3600) root_old_artifacts)
    = {| deleted := 1; errors := 0; freed_bytes := 2048 |} /\
  root_dirs (snd (cleanup_old_files 24 (48 * 3600) root_old_artifacts)) !! "exports"
    = Some {| dir_readable := true; dir_entries := [old_file "j.stl" 0 4096] |}.
Proof.
  split; [|split; reflexivity].
  unfold cleanup_old_files. destruct (root_exists root); cbn [negb]; [|reflexivity].
  pose proof (sweep_dirs_other (now - max_age_hours * 3600) directories_to_clean
                (root_dirs root) zero_stats "exports") as Hother.
  destruct (sweep_dirs (now - max_age_hours * 3600) directories_to_clean
              (root_dirs root) zero_stats) as [st dirs].
  cbn [fst snd root_dirs] in *. apply Hother. intros [H|[H|[H|[]]]]; discriminate.
Qed.

(** C10 (as stated, refuted): each run recomputes the cutoff from the
    clock; a file one hour too young at the first run is deleted by a
    second run an hour later, with no file added or modified. *)
Lemma second_sweep_deletes_after_clock_advance :
  let root := {| root_exists := true;
                 root_dirs := {[ "renders" := {| dir_readable := true;
                                   dir_entries := [old_file "j.png" 0 2048] |} ]} |} in
  deleted (fst (cleanup_old_files 24 (24 * 3600 - 1800) root)) = 0 /\
  deleted (fst (cleanup_old_files 24 (24 * 3600 + 1800)
                  (snd (cleanup_old_files 24 (24 * 3600 - 1800) root)))) = 1.
Proof. split; reflexivity. Qed.

(** C10 (amended): a second run over what the first run left, with no
    file added or modified, deletes nothing and frees nothing when it
    reads a clock time not later than the first run's. *)
Theorem cleanup_second_run_idle (max_age_hours now1 now2 : Z) (root : data_root)
    (Hclock : now2 <= now1) :
  deleted (fst (cleanup_old_files max_age_hours now2
                  (snd (cleanup_old_files max_age_hours now1 root)))) = 0 /\
  freed_bytes (fst (cleanup_old_files max_age_hours now2
                      (snd (cleanup_old_files max_age_hours now1 root)))) = 0.
Proof.
  destruct (root_exists root) eqn:Hex.
  - rewrite (cleanup_old_files_eq max_age_hours now1 root Hex).
    rewrite (cleanup_old_files_eq max_age_hours now2) by reflexivity. cbn [fst snd root_dirs].
    apply (sweep_dirs_nothing_old (now1 - max_age_hours * 3600)); [lia|].
    intros d Hd. apply sweep_dirs_clean. exact Hd.
  - unfold cleanup_old_files. rewrite Hex. cbn [negb snd]. rewrite Hex. split; reflexivity.
Qed.

Lemma cleanup_second_run_idle_witness :
  deleted (fst (cleanup_old_files 24 172800 root_old_artifacts)) = 1 /\
  freed_bytes (fst (cleanup_old_files 24 172800 root_old_artifacts)) = 2048 /\
  172800 <= 172800 /\
  deleted (fst (cleanup_old_files 24 172800
                  (snd (cleanup_old_files 24 172800 root_old_artifacts)))) = 0 /\
  freed_bytes (fst (cleanup_old_files 24 172800
                      (snd (cleanup_old_files 24 172800 root_old_artifacts)))) = 0.
Proof.
  split; [vm_compute; reflexivity|]. split; [vm_compute; reflexivity|].
  split; [lia|]. apply (cleanup_second_run_idle 24 172800 172800 root_old_artifacts). lia.
Defined.

(* ------------------------------------------------------------------ *)
(** ** Properties of [RenderManager] and of the queue loop *)

Lemma queue_entry_lookup id sp fmt (k : string) :
  queue_entry id sp fmt !! k =
    if String.eqb k "job_id" then Some id
    else if String.eqb k "scad_path" then Some sp
    else if String.eqb k "format" then Some fmt
    else if String.eqb k "status" then Some "queued"
    else None.
Proof.
  unfold queue_entry.
  destruct (String.eqb_spec k "job_id") as [->|H1]; [by rewrite lookup_insert_eq|].
  rewrite lookup_insert_ne by congruence.
  destruct (String.eqb_spec k "scad_path") as [->|H2]; [by rewrite lookup_insert_eq|].
  rewrite lookup_insert_ne by congruence.
  destruct (String.eqb_spec k "format") as [->|H3]; [by rewrite lookup_insert_eq|].
  rewrite lookup_insert_ne by congruence.
  destruct (String.eqb_spec k "status") as [->|H4]; [by rewrite lookup_insert_eq|].
  rewrite lookup_insert_ne by congruence. apply lookup_empty.
Qed.


(** Extra: [get_job_status] raises [Job not found: <id>] exactly when no
    record is stored; otherwise the answer echoes the id, defaults the
    status to [unknown], carries [preview_url], [stl_url] and [error] only
    when stored non-empty, and no other field of the record. *)
Theorem get_job_status_fields id (kv : kv_store) :
  match kv !! job_key id with
  | None => get_job_status id kv = inr ("Job not found: " ++ id)
  | Some job =>
      exists resp, get_job_status id kv = inl resp /\
        resp !! "job_id" = Some id /\
        resp !! "status" = Some (default "unknown" (job !! "status")) /\
        (forall k, k = "preview_url" \/ k = "stl_url" \/ k = "error" ->
           resp !! k = match job !! k with
                       | Some v => if py_truthy v then Some v else None
                       | None => None
                       end) /\
        (forall k, k <> "job_id" -> k <> "status" -> k <> "preview_url" ->
           k <> "stl_url" -> k <> "error" -> resp !! k = None)
  end.
Proof.
  unfold get_job_status. destruct (kv !! job_key id) as [job|]; [|reflexivity].
  eexists; split; [reflexivity|].
  set (add := copy_if_truthy job).
  assert (Hadd : forall k k' resp, k <> k' -> add k resp !! k' = resp !! k').
  { intros k k' resp Hk. unfold add, copy_if_truthy.
    destruct (job !! k) as [v|]; [destruct (py_truthy v)|]; try reflexivity.
    by apply lookup_insert_ne. }
  assert (Hadd_eq : forall k resp, resp !! k = None ->
            add k resp !! k = match job !! k with
                              | Some v => if py_truthy v then Some v else None
                              | None => None end).
  { intros k resp Hn. unfold add, copy_if_truthy.
    destruct (job !! k) as [v|]; [destruct (py_truthy v)|]; try assumption.
    apply lookup_insert_eq. }
  split; [rewrite !Hadd by discriminate; apply lookup_insert_eq|].
  split; [rewrite !Hadd by discriminate; rewrite lookup_insert_ne by discriminate;
          apply lookup_insert_eq|].
  split.
  - intros k [ -> | [ -> | -> ]].
    + rewrite !Hadd by discriminate. apply Hadd_eq.
      rewrite !lookup_insert_ne by discriminate. apply lookup_empty.
    + rewrite Hadd by discriminate. apply Hadd_eq. rewrite Hadd by discriminate.
      rewrite !lookup_insert_ne by discriminate. apply lookup_empty.
    + apply Hadd_eq. rewrite !Hadd by discriminate.
      rewrite !lookup_insert_ne by discriminate. apply lookup_empty.
  - intros k H1 H2 H3 H4 H5. rewrite !Hadd by congruence.
    rewrite !lookup_insert_ne by congruence. apply lookup_empty.
Qed.

(** Extra: [update_job_status] on a missing job raises [Job not found] and
    writes nothing; on a stored job it overwrites the given fields, keeps
    every other field of the record, and leaves other keys untouched. *)
Theorem update_job_status_merge id (updates : job_dict) (kv : kv_store) :
  match kv !! job_key id with
  | None => update_job_status id updates kv = inr ("Job not found: " ++ id)
  | Some job =>
      exists kv', update_job_status id updates kv = inl kv' /\
        (forall f, kv' !! job_key id ≫= (fun d => d !! f)
                   = match updates !! f with
                     | Some v => Some v
                     | None => job !! f
                     end) /\
        (forall k, k <> job_key id -> kv' !! k = kv !! k)
  end.
Proof.
  unfold update_job_status. destruct (kv !! job_key id) as [job|]; [|reflexivity].
  eexists; split; [reflexivity|]. split.
  - intros f. rewrite lookup_insert_eq. cbn.
    rewrite lookup_union. destruct (updates !! f), (job !! f); reflexivity.
  - intros k Hk. by apply lookup_insert_ne.
Qed.

Lemma pops_rev n q : (length q <= n)%nat -> pops n q = rev q.
Proof.
  revert q. induction n as [|n IH]; intros q Hl.
  - destruct q; [reflexivity|cbn in Hl; lia].
  - cbn. unfold brpop. destruct (rev q) as [|e r] eqn:Hq; [reflexivity|].
    f_equal. rewrite IH.
    + apply rev_involutive.
    + rewrite length_rev. apply (f_equal (@length _)) in Hq.
      rewrite length_rev in Hq. cbn in Hq. lia.
Qed.

(** Extra: [render_queue] is first in, first out: after pushing [es] in
    order with [lpush] onto a queue [q0], [brpop] hands out the entries of
    [q0] oldest first and then [es] in submission order. *)
Theorem render_queue_fifo (q0 es : list job_dict) :
  pops (length q0 + length es) (fold_left (fun q e => lpush e q) es q0)
  = (rev q0 ++ es)%list.
Proof.
  assert (Hf : forall es q, fold_left (fun q e => lpush e q) es q = (rev es ++ q)%list).
  { induction es0 as [|e es' IH]; intros q; [reflexivity|].
    cbn. rewrite IH. unfold lpush. rewrite <- app_assoc. reflexivity. }
  rewrite Hf, pops_rev.
  - rewrite rev_app_distr, rev_involutive. reflexivity.
  - rewrite length_app, length_rev. lia.
Qed.

Lemma run_step_single E r e :
  rd_queue r = [e] ->
  run_step E r = match process_job E e with
                 | Some acts => {| rd_kv := run_actions (rd_kv r) acts; rd_queue := [] |}
                 | None => {| rd_kv := rd_kv r; rd_queue := [] |}
                 end.
Proof. intros Hq. unfold run_step. rewrite Hq. reflexivity. Qed.

(** Extra: a job submitted to an empty queue and taken by one iteration of
    the render loop reads back as [completed] or [failed] according to the
    collected errors, with a preview link exactly when the PNG render
    succeeded, an STL link exactly when an STL was requested and rendered,
    and the joined errors exactly when it failed. *)
Theorem submit_process_status data_path id code fmt r files E :
  rd_queue r = [] ->
  let '(_, r1, _) := submit_render_job data_path id code fmt r files in
  let errs := job_errors E (queue_entry id (scad_path_of data_path id) fmt) in
  rd_queue (run_step E r1) = [] /\
  exists resp, get_job_status id (rd_kv (run_step E r1)) = inl resp /\
    resp !! "status" = Some (match errs with [] => "completed" | _ => "failed" end) /\
    resp !! "preview_url"
      = (if fst (png_result E) then Some ("/api/v1/render/" ++ id ++ "/preview")
         else None) /\
    resp !! "stl_url"
      = (if (String.eqb fmt "stl" || String.eqb fmt "both") && fst (stl_result E)
         then Some ("/api/v1/render/" ++ id ++ "/download") else None) /\
    resp !! "error" = match errs with [] => None | _ => Some (py_join "; " errs) end.
Proof.
  intros Hq. cbn zeta. unfold submit_render_job.
  set (e := queue_entry id (scad_path_of data_path id) fmt).
  cbn zeta.
  set (r1 := {| rd_kv := _; rd_queue := _ |}).
  assert (Hq1 : rd_queue r1 = [e]) by (cbn; rewrite Hq; reflexivity).
  rewrite (run_step_single E r1 e Hq1).
  assert (Hid : e !! "job_id" = Some id) by (unfold e; rewrite queue_entry_lookup; reflexivity).
  assert (Hsp : e !! "scad_path" = Some (scad_path_of data_path id))
    by (unfold e; rewrite queue_entry_lookup; reflexivity).
  destruct (process_job_spec E e id _ Hid Hsp)
    as [fin [Hp [Hother [Hpv [Hstl [Hstatus Herror]]]]]].
  rewrite Hp. split; [reflexivity|].
  assert (Hfin : run_actions (rd_kv r1)
     ([SetEx (job_key id) 3600 (<["status":="processing"]> e);
       CallPng (snd (render_png (env_timeout E) (env_xvfb E) (env_png E) (env_png_file E)))]
      ++ (if stl_requested e then [CallStl (snd (render_stl (env_timeout E) (env_stl E) (env_stl_file E)))] else [])
      ++ [SetEx (job_key id) 3600 fin])%list !! job_key id = Some fin).
  { unfold run_actions. destruct (stl_requested e); cbn; apply lookup_insert_eq. }
  cbn [rd_kv]. unfold get_job_status. rewrite Hfin.
  assert (He : forall k, k = "preview_url" \/ k = "stl_url" \/ k = "error" -> e !! k = None).
  { intros k [ -> | [ -> | -> ]]; unfold e; rewrite queue_entry_lookup; reflexivity. }
  assert (Hfmt : e !! "format" = Some fmt)
    by (unfold e; rewrite queue_entry_lookup; reflexivity).
  assert (Hreq : stl_requested e = (String.eqb fmt "stl" || String.eqb fmt "both"))
    by (unfold stl_requested; rewrite Hfmt; reflexivity).
  rewrite Hfmt in Hstatus, Herror. rewrite Hreq in Hstl.
  rewrite He in Hpv, Hstl, Herror by tauto.
  assert (Hne : job_errors E e <> [] -> py_truthy (py_join "; " (job_errors E e)) = true).
  { intros Hn. pose proof (py_join_nonempty "; " _ (job_errors_nonempty E e) Hn) as Hj.
    unfold py_truthy. destruct (String.eqb_spec (py_join "; " (job_errors E e)) "");
      [contradiction|reflexivity]. }
  eexists; split; [reflexivity|].
  unfold copy_if_truthy.
  rewrite Hpv, Hstl, Herror, Hstatus.
  set (so := ((fmt =? "stl")%string || (fmt =? "both")%string) && fst (stl_result E)).
  assert (Hu : forall s, py_truthy ("/api/v1/render/" ++ s) = true) by reflexivity.
  destruct (fst (png_result E)); destruct so;
  destruct (job_errors E e) as [|x xs] eqn:Hx; rewrite ?Hu, ?Hne by discriminate;
  cbn [default]; repeat split; lookup_simpl.
Qed.

Lemma submit_process_status_witness :
  rd_queue {| rd_kv := ∅; rd_queue := [] |} = [] /\
  let '(_, r1, _) := submit_render_job "/data" "j" "cube(1);" "both"
                       {| rd_kv := ∅; rd_queue := [] |} ∅ in
  rd_queue (run_step env_all_ok r1) = [] /\
  exists resp, get_job_status "j" (rd_kv (run_step env_all_ok r1)) = inl resp /\
    resp !! "status" = Some "completed" /\
    resp !! "preview_url" = Some "/api/v1/render/j/preview" /\
    resp !! "stl_url" = Some "/api/v1/render/j/download" /\
    resp !! "error" = None.
Proof.
  split; [reflexivity|].
  exact (submit_process_status "/data" "j" "cube(1);" "both"
           {| rd_kv := ∅; rd_queue := [] |} ∅ env_all_ok eq_refl).
Defined.

(* ------------------------------------------------------------------ *)
(** ** Properties of the cleanup statistics *)

Lemma size_sum_cons f fs : size_sum (f :: fs) = fe_size f + size_sum fs.
Proof. reflexivity. Qed.

Lemma sweep_files_counts c fs st :
  let '(st', kept) := sweep_files c fs st in
  deleted st' = deleted st + count_if (swept c) fs /\
  errors st' = errors st + count_if (sweep_failed c) fs /\
  freed_bytes st' = freed_bytes st + size_sum (List.filter (swept c) fs) /\
  kept = List.filter (fun f => negb (swept c f)) fs.
Proof.
  revert st. induction fs as [|f rest IH]; intros st.
  - cbn. unfold count_if. cbn. repeat split; lia.
  - cbn [sweep_files]. unfold count_if in *.
    destruct f as [nm isf sok mt sz uok]. unfold swept, sweep_failed in *.
    cbn [fe_is_file fe_stat_ok fe_mtime fe_size fe_unlink_ok].
    destruct isf, sok, (Z.ltb mt c) eqn:Hlt, uok;
      cbn [List.filter negb andb orb fe_is_file fe_stat_ok fe_mtime fe_size fe_unlink_ok].
    all: match goal with
         | |- context [sweep_files ?c0 ?r0 ?s] =>
             specialize (IH s); destruct (sweep_files c0 r0 s) as [st' kept]
         end.
    all: cbn [length deleted errors freed_bytes fe_size] in *;
         rewrite ?Hlt; cbn [andb negb orb length fe_size]; rewrite ?size_sum_cons; cbn [fe_size].
    all: destruct IH as [H1 [H2 [H3 H4]]]; rewrite ?Nat2Z.inj_succ;
         repeat split; try lia; subst kept; reflexivity.
Qed.

(** Extra: sweeping one directory deletes exactly the regular, stat-able,
    older-than-cutoff files whose unlink succeeds; [deleted] grows by their
    number, [freed_bytes] by their sizes, [errors] by the files whose stat
    or unlink raised, and every other entry stays in the directory. *)
Theorem sweep_files_accounting c fs st :
  let '(st', kept) := sweep_files c fs st in
  deleted st' = deleted st + count_if (swept c) fs /\
  errors st' = errors st + count_if (sweep_failed c) fs /\
  freed_bytes st' = freed_bytes st + size_sum (List.filter (swept c) fs) /\
  kept = List.filter (fun f => negb (swept c f)) fs.
Proof. exact (sweep_files_counts c fs st). Qed.

Lemma sum_dirs_insert f dirs names d x :
  ~ In d names -> sum_dirs f (<[d := x]> dirs) names = sum_dirs f dirs names.
Proof.
  induction names as [|d0 rest IH]; intros Hn; [reflexivity|].
  cbn [sum_dirs]. rewrite lookup_insert_ne by (intros ->; apply Hn; left; reflexivity).
  rewrite IH by (intros H; apply Hn; right; exact H). reflexivity.
Qed.

Lemma sweep_dirs_totals c names dirs st :
  NoDup names ->
  let st' := fst (sweep_dirs c names dirs st) in
  deleted st' = deleted st + sum_dirs (dir_deleted c) dirs names /\
  errors st' = errors st + sum_dirs (dir_errors c) dirs names /\
  freed_bytes st' = freed_bytes st + sum_dirs (dir_freed c) dirs names.
Proof.
  revert dirs st. induction names as [|d rest IH]; intros dirs st Hnd.
  - cbn. lia.
  - inversion Hnd as [|? ? Hnin0 Hnd']; subst.
    assert (Hnin : ~ In d rest) by (intros Hin; apply Hnin0; apply list_elem_of_In; exact Hin).
    cbn zeta. cbn [sweep_dirs sum_dirs].
    destruct (dirs !! d) as [dir|] eqn:Hd; cbn [dir_deleted dir_errors dir_freed].
    + destruct (dir_readable dir); cbn [negb].
      * pose proof (sweep_files_counts c (dir_entries dir) st) as Hs.
        destruct (sweep_files c (dir_entries dir) st) as [st1 kept].
        destruct Hs as [H1 [H2 [H3 _]]].
        destruct (IH (<[d := {| dir_readable := true; dir_entries := kept |}]> dirs) st1 Hnd')
          as [G1 [G2 G3]].
        rewrite !sum_dirs_insert in G1, G2, G3 by exact Hnin.
        unfold count_if in *. repeat split; lia.
      * destruct (IH dirs {| deleted := deleted st; errors := errors st + 1;
                               freed_bytes := freed_bytes st |} Hnd') as [G1 [G2 G3]].
        cbn [deleted errors freed_bytes] in G1, G2, G3.
        repeat split; lia.
    + destruct (IH dirs st Hnd') as [G1 [G2 G3]]. repeat split; lia.
Qed.

(** Extra: the statistics [cleanup_old_files] returns are the sums over
    [scad_files], [renders] and [logs] of what each directory contributes:
    deleted files and their bytes for a readable directory, one error for
    an unreadable one, nothing for a missing one; all zero when the data
    directory does not exist. *)
Theorem cleanup_old_files_totals max_age_hours now root :
  let c := now - max_age_hours * 3600 in
  let st := fst (cleanup_old_files max_age_hours now root) in
  deleted st = (if root_exists root
                then sum_dirs (dir_deleted c) (root_dirs root) directories_to_clean else 0) /\
  errors st = (if root_exists root
               then sum_dirs (dir_errors c) (root_dirs root) directories_to_clean else 0) /\
  freed_bytes st = (if root_exists root
                    then sum_dirs (dir_freed c) (root_dirs root) directories_to_clean else 0).
Proof.
  cbn zeta. unfold cleanup_old_files.
  destruct (root_exists root); cbn [negb]; [|cbn; repeat split; reflexivity].
  assert (Hnd : NoDup directories_to_clean) by (repeat constructor; set_solver).
  pose proof (sweep_dirs_totals (now - max_age_hours * 3600) directories_to_clean
                (root_dirs root) zero_stats Hnd) as H.
  destruct (sweep_dirs _ _ _ _) as [st dirs]. cbn in H |- *. lia.
Qed.

(* ------------------------------------------------------------------ *)
(** ** Properties of [get_disk_usage] *)

Lemma prefix_both p1 p2 r :
  String.prefix p1 r = true -> String.prefix p2 r = true ->
  String.prefix p1 p2 = true \/ String.prefix p2 p1 = true.
Proof.
  revert p1 p2. induction r as [|c r IH]; intros p1 p2 H1 H2;
    destruct p1 as [|a p1], p2 as [|b p2]; cbn in *; auto; try discriminate.
  destruct (ascii_dec a c) as [->|]; [|discriminate].
  destruct (ascii_dec b c) as [->|]; [|discriminate].
  destruct (ascii_dec c c) as [_|n]; [|contradiction].
  apply IH; assumption.
Qed.

Lemma endswith_excl n s1 s2 :
  String.prefix (py_rev s1) (py_rev s2) = false ->
  String.prefix (py_rev s2) (py_rev s1) = false ->
  py_endswith n s1 = true -> py_endswith n s2 = false.
Proof.
  unfold py_endswith. intros A B H1.
  destruct (String.prefix (py_rev s2) (py_rev n)) eqn:H2; [|reflexivity].
  destruct (prefix_both _ _ _ H1 H2) as [H|H]; congruence.
Qed.

Lemma endswith_cases n :
  let e1 := py_endswith n ".scad" in let e2 := py_endswith n ".stl" in
  let e3 := py_endswith n ".png" in let e4 := py_endswith n ".log" in
  (e1 = true /\ e2 = false /\ e3 = false /\ e4 = false) \/
  (e1 = false /\ e2 = true /\ e3 = false /\ e4 = false) \/
  (e1 = false /\ e2 = false /\ e3 = true /\ e4 = false) \/
  (e1 = false /\ e2 = false /\ e3 = false /\ e4 = true) \/
  (e1 = false /\ e2 = false /\ e3 = false /\ e4 = false).
Proof.
  cbn zeta.
  destruct (py_endswith n ".scad") eqn:E1.
  { left. repeat split; apply (endswith_excl n ".scad"); try reflexivity; exact E1. }
  destruct (py_endswith n ".stl") eqn:E2.
  { right; left. repeat split; try reflexivity;
    apply (endswith_excl n ".stl"); try reflexivity; exact E2. }
  destruct (py_endswith n ".png") eqn:E3.
  { right; right; left. repeat split; try reflexivity;
    apply (endswith_excl n ".png"); try reflexivity; exact E3. }
  destruct (py_endswith n ".log"); [right; right; right; left | right; right; right; right];
    repeat split; reflexivity.
Qed.

Lemma zsum_cons x l : zsum (x :: l) = x + zsum l.
Proof. reflexivity. Qed.

Lemma du_fold fs u :
  let u' := fold_left du_step fs u in
  du_scad u' = {| ub_count := ub_count (du_scad u) + ub_count (bucket_of (ends ".scad") fs);
                  ub_bytes := ub_bytes (du_scad u) + ub_bytes (bucket_of (ends ".scad") fs) |} /\
  du_stl u' = {| ub_count := ub_count (du_stl u) + ub_count (bucket_of (ends ".stl") fs);
                 ub_bytes := ub_bytes (du_stl u) + ub_bytes (bucket_of (ends ".stl") fs) |} /\
  du_png u' = {| ub_count := ub_count (du_png u) + ub_count (bucket_of (ends ".png") fs);
                 ub_bytes := ub_bytes (du_png u) + ub_bytes (bucket_of (ends ".png") fs) |} /\
  du_log u' = {| ub_count := ub_count (du_log u) + ub_count (bucket_of (ends ".log") fs);
                 ub_bytes := ub_bytes (du_log u) + ub_bytes (bucket_of (ends ".log") fs) |} /\
  du_total u' = du_total u + zsum (stat_sizes (fun _ => true) fs).
Proof.
  revert u. induction fs as [|f rest IH]; intros u.
  - destruct u as [[] [] [] [] t]; cbn. repeat split; f_equal; lia.
  - cbn [fold_left]. destruct (IH (du_step u f)) as [I1 [I2 [I3 [I4 I5]]]].
    rewrite I1, I2, I3, I4, I5. unfold du_step, bucket_of.
    cbn [stat_sizes]. destruct (wf_stat f) as [sz|].
    + unfold ends. destruct (endswith_cases (wf_name f))
        as [[-> [-> [-> ->]]]|[[-> [-> [-> ->]]]|[[-> [-> [-> ->]]]|[[-> [-> [-> ->]]]|[-> [-> [-> ->]]]]]]];
      destruct u as [[] [] [] [] t]; cbn -[zsum]; rewrite ?zsum_cons;
      repeat split; try apply (f_equal2 Build_usage_bucket); lia.
    + destruct u as [[] [] [] [] t]; cbn -[zsum]; repeat split; try apply (f_equal2 Build_usage_bucket); lia.
Qed.

(** Extra: when the data directory exists, [get_disk_usage] counts every
    stat-able [.scad], [.stl], [.png] and [.log] file in the bucket of its
    extension (with the bytes of those files), no file in two buckets, and
    [total_bytes] is the size of every stat-able file, whatever its name;
    when it does not exist the result is the empty dict. *)
Theorem get_disk_usage_buckets (root_exists : bool) (fs : list walk_file) :
  get_disk_usage root_exists fs
  = if root_exists then
      Some {| du_scad := bucket_of (ends ".scad") fs;
              du_stl := bucket_of (ends ".stl") fs;
              du_png := bucket_of (ends ".png") fs;
              du_log := bucket_of (ends ".log") fs;
              du_total := zsum (stat_sizes (fun _ => true) fs) |}
    else None.
Proof.
  unfold get_disk_usage. destruct root_exists; [|reflexivity]. cbn [negb].
  destruct (du_fold fs du_zero) as [H1 [H2 [H3 [H4 H5]]]].
  destruct (fold_left du_step fs du_zero) as [a b c d t]. cbn in *.
  rewrite H1, H2, H3, H4, H5. unfold bucket_of. reflexivity.
Qed.

(* ------------------------------------------------------------------ *)
(** ** Properties of the render loop *)

Lemma brpop_snoc q e : brpop (q ++ [e])%list = Some (e, q).
Proof. unfold brpop. rewrite rev_app_distr. cbn. rewrite rev_involutive. reflexivity. Qed.

Lemma run_step_snoc E r q e :
  rd_queue r = (q ++ [e])%list ->
  rd_queue (run_step E r) = q /\
  rd_kv (run_step E r) = match process_job E e with
                         | Some acts => run_actions (rd_kv r) acts
                         | None => rd_kv r
                         end.
Proof.
  intros Hq. unfold run_step. rewrite Hq, brpop_snoc.
  destruct (process_job E e); split; reflexivity.
Qed.

(** Extra: one iteration of the render loop on a non-empty queue removes
    exactly the oldest entry; when that entry lacks [job_id] or
    [scad_path] the raised [KeyError] is caught and the store is left
    unchanged; on an empty queue nothing changes. *)
Theorem run_step_pops_oldest E r q e :
  rd_queue r = (q ++ [e])%list ->
  rd_queue (run_step E r) = q /\
  ((e !! "job_id" = None \/ e !! "scad_path" = None) ->
   rd_kv (run_step E r) = rd_kv r) /\
  run_step E {| rd_kv := rd_kv r; rd_queue := [] |}
    = {| rd_kv := rd_kv r; rd_queue := [] |}.
Proof.
  intros Hq. destruct (run_step_snoc E r q e Hq) as [H1 H2].
  split; [exact H1|]. split; [|reflexivity].
  intros Hm. rewrite H2. unfold process_job.
  destruct Hm as [-> | ->]; [reflexivity|]. destruct (e !! "job_id"); reflexivity.
Qed.

Lemma run_step_shrinks E r :
  length (rd_queue (run_step E r)) = Nat.pred (length (rd_queue r)).
Proof.
  destruct (rd_queue r) as [|x q0] eqn:Hq.
  - unfold run_step. rewrite Hq. cbn. rewrite Hq. reflexivity.
  - destruct (exists_last (l := x :: q0) ltac:(discriminate)) as [q [e He]].
    rewrite He in Hq |- *. destruct (run_step_snoc E r q e Hq) as [-> _].
    rewrite length_app. cbn. lia.
Qed.

(** Extra: the render loop never stops on a bad job: [n] iterations empty
    a queue of at most [n] entries, whatever the outcome of each job. *)
Theorem run_loop_drains Es r :
  (length (rd_queue r) <= length Es)%nat -> rd_queue (run_loop Es r) = [].
Proof.
  revert r. induction Es as [|E Es IH]; intros r Hl.
  - cbn in *. destruct (rd_queue r); [reflexivity|cbn in Hl; lia].
  - cbn. apply IH. rewrite run_step_shrinks. cbn in Hl. lia.
Qed.

Lemma run_step_pops_oldest_witness :
  let r := {| rd_kv := ∅;
              rd_queue := [queue_entry "a" "/data/scad_files/a.scad" "png"; ∅] |} in
  rd_queue r = ([queue_entry "a" "/data/scad_files/a.scad" "png"] ++ [∅])%list /\
  rd_queue (run_step env_all_ok r) = [queue_entry "a" "/data/scad_files/a.scad" "png"] /\
  (((∅ : job_dict) !! "job_id" = None \/ (∅ : job_dict) !! "scad_path" = None) ->
   rd_kv (run_step env_all_ok r) = rd_kv r) /\
  run_step env_all_ok {| rd_kv := rd_kv r; rd_queue := [] |}
    = {| rd_kv := rd_kv r; rd_queue := [] |}.
Proof.
  intros r. split; [reflexivity|].
  apply (run_step_pops_oldest env_all_ok r _ ∅). reflexivity.
Defined.

Lemma run_loop_drains_witness :
  let r := {| rd_kv := ∅;
              rd_queue := [queue_entry "a" "/data/scad_files/a.scad" "png"; ∅] |} in
  (length (rd_queue r) <= length [env_all_ok; env_all_ok])%nat /\
  rd_queue (run_loop [env_all_ok; env_all_ok] r) = [].
Proof.
  intros r. split; [cbn; lia|].
  apply (run_loop_drains [env_all_ok; env_all_ok] r). cbn; lia.
Defined.

(* ------------------------------------------------------------------ *)
(** ** Properties of [validate_scad_code] and of the render endpoint *)

Lemma str_app_cons c (a b : string) : String c a ++ b = String c (a ++ b).
Proof. reflexivity. Qed.

Lemma str_app_nil_l (b : string) : "" ++ b = b.
Proof. reflexivity. Qed.

Lemma str_app_nil_inv (s1 s2 : string) : s1 ++ s2 = "" -> s1 = "" /\ s2 = "".
Proof. destruct s1; rewrite ?str_app_cons; [auto|discriminate]. Qed.

Lemma str_app_assoc (a b c : string) : (a ++ b) ++ c = a ++ (b ++ c).
Proof. induction a as [|x a IH]; [reflexivity|]. rewrite !str_app_cons, IH. reflexivity. Qed.

Lemma nullable_complete r : in_re r "" -> nullable r = true.
Proof.
  intros H. remember "" as e eqn:He. revert He.
  induction H; intros He; cbn; try discriminate; try reflexivity.
  - apply str_app_nil_inv in He as [-> ->].
    rewrite IHin_re1, IHin_re2 by reflexivity. reflexivity.
  - rewrite IHin_re by exact He. reflexivity.
  - rewrite IHin_re by exact He. apply orb_true_r.
Qed.

Lemma nullable_sound r : nullable r = true -> in_re r "".
Proof.
  induction r; cbn; intros H; try discriminate.
  - constructor.
  - apply andb_true_iff in H as [H1 H2].
    change "" with ("" ++ "")%string. constructor; auto.
  - apply orb_true_iff in H as [H|H]; [apply in_altl|apply in_altr]; auto.
  - constructor.
Qed.

Lemma deriv_complete r c s : in_re r (String c s) -> in_re (deriv c r) s.
Proof.
  intros H. remember (String c s) as w eqn:Hw. revert c s Hw.
  induction H; intros c' s' Hw; cbn.
  - discriminate.
  - injection Hw as <- <-. rewrite H. constructor.
  - destruct s1 as [|x s1].
    + rewrite str_app_nil_l in Hw. subst s2. rewrite (nullable_complete a H).
      apply in_altr. apply IHin_re2. reflexivity.
    + rewrite str_app_cons in Hw. injection Hw as <- <-.
      destruct (nullable a); [apply in_altl|]; constructor; auto.
  - apply in_altl. auto.
  - apply in_altr. auto.
  - discriminate.
  - destruct s1 as [|x s1].
    + rewrite str_app_nil_l in Hw. subst s2. apply IHin_re2. reflexivity.
    + rewrite str_app_cons in Hw. injection Hw as <- <-. constructor; auto.
Qed.

Lemma deriv_sound r c s : in_re (deriv c r) s -> in_re r (String c s).
Proof.
  revert s. induction r as [| |p|a IHa b IHb|a IHa b IHb|a IHa]; intros s H; cbn in H.
  - inversion H.
  - inversion H.
  - destruct (p c) eqn:Hp; inversion H; subst. constructor. exact Hp.
  - destruct (nullable a) eqn:Hn.
    + inversion H as [| |? ? ? ? H1 H2| ? ? ? H1| ? ? ? H1| |]; subst.
      * inversion H1; subst. change (String c (s1 ++ s2)) with ((String c s1) ++ s2)%string.
        constructor; auto.
      * change (String c s) with ("" ++ String c s)%string.
        constructor; [apply nullable_sound; exact Hn|]. auto.
    + inversion H; subst. change (String c (s1 ++ s2)) with ((String c s1) ++ s2)%string.
      constructor; auto.
  - inversion H; subst; [apply in_altl|apply in_altr]; auto.
  - inversion H; subst. change (String c (s1 ++ s2)) with ((String c s1) ++ s2)%string.
    constructor; auto.
Qed.

Lemma re_matches_iff r s : re_matches r s = true <-> in_re r s.
Proof.
  revert r. induction s as [|c s IH]; intros r; cbn.
  - split; [apply nullable_sound|apply nullable_complete].
  - rewrite IH. split; [apply deriv_sound|apply deriv_complete].
Qed.

Lemma in_lit w : in_re (re_lit w) w.
Proof.
  induction w as [|c w IH]; cbn; [constructor|].
  change (String c w) with (String c "" ++ w)%string.
  constructor; [constructor; apply Ascii.eqb_refl|exact IH].
Qed.

Lemma in_lit_inv w s : in_re (re_lit w) s -> s = w.
Proof.
  revert s. induction w as [|c w IH]; intros s H; cbn in H; inversion H; subst; [reflexivity|].
  match goal with H1 : in_re (RChar _) _ |- _ => inversion H1; subst end.
  match goal with H2 : in_re (re_lit w) _ |- _ => apply IH in H2; subst end.
  match goal with Hc : Ascii.eqb _ c = true |- _ => apply Ascii.eqb_eq in Hc; subst end.
  reflexivity.
Qed.

Lemma in_star_all p s : str_forall p s = true -> in_re (RStar (RChar p)) s.
Proof.
  induction s as [|c s IH]; cbn; intros H; [constructor|].
  apply andb_true_iff in H as [H1 H2].
  change (String c s) with (String c "" ++ s)%string.
  constructor; [constructor; exact H1|auto].
Qed.

Lemma re_search_substring r s :
  re_search r s = true <-> exists pre m post, s = pre ++ m ++ post /\ in_re r m.
Proof.
  unfold re_search. rewrite re_matches_iff. split.
  - intros H. inversion H as [| |? ? pre rest Hpre Hrest| | | |]; subst.
    inversion Hrest as [| |? ? m post Hm Hpost| | | |]; subst.
    exists pre, m, post. split; [reflexivity|exact Hm].
  - intros [pre [m [post [-> Hm]]]]. constructor.
    + apply in_star_all with (p := fun _ => true). induction pre; cbn; auto.
    + constructor; [exact Hm|].
      apply in_star_all with (p := fun _ => true). induction post; cbn; auto.
Qed.

Lemma traversal_pattern_kw kw m :
  in_re (traversal_pattern kw) m -> exists rest, m = kw ++ rest.
Proof.
  unfold traversal_pattern. intros H. inversion H; subst.
  match goal with H1 : in_re (re_lit kw) _ |- _ => apply in_lit_inv in H1; subst end.
  eexists; reflexivity.
Qed.

Lemma validate_errors_spec max code :
  snd (validate_scad_code max code) =
    app (app (app (app (if re_search (traversal_pattern "import") code
                        then ["Path traversal in import statement"] else [])
                       (if re_search (traversal_pattern "use") code
                        then ["Path traversal in use statement"] else []))
                  (if Z.ltb max (Z.of_nat (String.length code))
                   then ["Code exceeds size limit (" ++ py_str_int max ++ " bytes)"] else []))
             (if negb (py_truthy (py_strip code)) then ["Code cannot be empty"] else []))
        [] /\
  fst (validate_scad_code max code) = Nat.eqb (length (snd (validate_scad_code max code))) 0.
Proof.
  unfold validate_scad_code, dangerous_patterns. cbn [fold_left fst snd].
  split; [|reflexivity].
  destruct (re_search (traversal_pattern "import") code),
           (re_search (traversal_pattern "use") code),
           (Z.ltb max (Z.of_nat (String.length code))),
           (negb (py_truthy (py_strip code))); reflexivity.
Qed.

Lemma prefix_app (w post : string) : String.prefix w (w ++ post) = true.
Proof.
  induction w as [|c w IH]; [destruct post; reflexivity|].
  rewrite str_app_cons. cbn. destruct (ascii_dec c c); [exact IH|contradiction].
Qed.

Lemma str_contains_app needle pre post :
  str_contains needle (pre ++ needle ++ post) = true.
Proof.
  induction pre as [|c pre IH].
  - rewrite str_app_nil_l.
    assert (Hu : forall h, str_contains needle h
                 = String.prefix needle h
                   || match h with EmptyString => false
                      | String _ rest => str_contains needle rest end)
      by (intros h; destruct h; reflexivity).
    rewrite Hu, prefix_app. reflexivity.
  - rewrite str_app_cons. cbn. rewrite IH. apply orb_true_r.
Qed.

Lemma in_traversal kw ws m1 m2 :
  str_forall py_isspace ws = true -> str_forall not_newline m1 = true ->
  str_forall not_newline m2 = true ->
  in_re (traversal_pattern kw) (kw ++ ws ++ "<" ++ m1 ++ "../" ++ m2 ++ ">").
Proof.
  intros Hws H1 H2. unfold traversal_pattern.
  repeat apply in_seq; try apply in_lit; apply in_star_all; assumption.
Qed.

(** Extra: [validate_scad_code] rejects every code that contains [import]
    or [use], optional whitespace, [<], a rest of line holding [../], and a
    later [>] on that line, with the matching path-traversal message. *)
Theorem validate_rejects_traversal max kw msg pre ws m1 m2 post :
  In (kw, msg) [("import", "Path traversal in import statement");
                ("use", "Path traversal in use statement")] ->
  str_forall py_isspace ws = true -> str_forall not_newline m1 = true ->
  str_forall not_newline m2 = true ->
  let code := pre ++ kw ++ ws ++ "<" ++ m1 ++ "../" ++ m2 ++ ">" ++ post in
  fst (validate_scad_code max code) = false /\ In msg (snd (validate_scad_code max code)).
Proof.
  intros Hin Hws H1 H2 code.
  assert (Hs : re_search (traversal_pattern kw) code = true).
  { apply re_search_substring.
    exists pre, (kw ++ ws ++ "<" ++ m1 ++ "../" ++ m2 ++ ">"), post. split.
    - unfold code. rewrite !str_app_assoc. reflexivity.
    - apply in_traversal; assumption. }
  destruct (validate_errors_spec max code) as [He Hf].
  assert (Hm : In msg (snd (validate_scad_code max code))).
  { rewrite He. rewrite app_nil_r.
    destruct Hin as [Hk|[Hk|[]]]; injection Hk as <- <-; rewrite Hs.
    - do 3 (apply in_or_app; left). left; reflexivity.
    - do 2 (apply in_or_app; left). apply in_or_app; right. left; reflexivity. }
  split; [|exact Hm]. rewrite Hf.
  destruct (snd (validate_scad_code max code)); [destruct Hm|reflexivity].
Qed.

Lemma re_search_traversal_kw kw code :
  re_search (traversal_pattern kw) code = true -> str_contains kw code = true.
Proof.
  intros H. apply re_search_substring in H as [pre [m [post [-> Hm]]]].
  apply traversal_pattern_kw in Hm as [rest ->].
  rewrite str_app_assoc. apply str_contains_app.
Qed.

(** Extra: [validate_scad_code] accepts, with no error, every non-blank
    code within the size limit in which neither [import] nor [use]
    occurs; the other ways OpenSCAD reads files, such as
    [include <../x.scad>], are not looked at. *)
Theorem validate_accepts_without_keywords max code :
  str_contains "import" code = false -> str_contains "use" code = false ->
  py_truthy (py_strip code) = true -> Z.of_nat (String.length code) <= max ->
  validate_scad_code max code = (true, []).
Proof.
  intros Hi Hu Hb Hl.
  assert (Ei : re_search (traversal_pattern "import") code = false).
  { destruct (re_search (traversal_pattern "import") code) eqn:E; [|reflexivity].
    apply re_search_traversal_kw in E. congruence. }
  assert (Eu : re_search (traversal_pattern "use") code = false).
  { destruct (re_search (traversal_pattern "use") code) eqn:E; [|reflexivity].
    apply re_search_traversal_kw in E. congruence. }
  unfold validate_scad_code, dangerous_patterns. cbn [fold_left].
  rewrite Ei, Eu, Hb. cbn [negb].
  destruct (Z.ltb_spec max (Z.of_nat (String.length code))); [lia|]. reflexivity.
Qed.

Lemma validate_accepts_without_keywords_witness :
  (str_contains "import" "include <../secret.scad>" = false /\
   str_contains "use" "include <../secret.scad>" = false /\
   py_truthy (py_strip "include <../secret.scad>") = true /\
   Z.of_nat (String.length "include <../secret.scad>") <= 100000) /\
  validate_scad_code 100000 "include <../secret.scad>" = (true, []).
Proof.
  split; [repeat split; try reflexivity; vm_compute; discriminate|].
  apply validate_accepts_without_keywords;
    [reflexivity|reflexivity|reflexivity|vm_compute; discriminate].
Defined.

(** Extra: the render endpoint answers a blank submission, or one over the
    size limit, with HTTP 400 naming the failed checks, and then neither
    writes the script, nor queues a job, nor stores a record. *)
Theorem api_submit_rejects_blank_or_oversize max data_path id code fmt r files :
  py_strip code = "" \/ max < Z.of_nat (String.length code) ->
  exists errs,
    api_submit_render max data_path id code fmt r files
      = (HttpError 400 ("Code validation failed: " ++ py_join ", " errs), r, files) /\
    (py_strip code = "" -> In "Code cannot be empty" errs) /\
    (max < Z.of_nat (String.length code) ->
     In ("Code exceeds size limit (" ++ py_str_int max ++ " bytes)") errs).
Proof.
  intros Hbad. destruct (validate_errors_spec max code) as [He Hf].
  assert (Hin1 : py_strip code = "" -> In "Code cannot be empty" (snd (validate_scad_code max code))).
  { intros Hs. rewrite He, Hs. cbn [py_truthy String.eqb negb].
    rewrite app_nil_r. apply in_or_app; right; left; reflexivity. }
  assert (Hin2 : max < Z.of_nat (String.length code) ->
            In ("Code exceeds size limit (" ++ py_str_int max ++ " bytes)")
               (snd (validate_scad_code max code))).
  { intros Hl. rewrite He. apply Z.ltb_lt in Hl. rewrite Hl.
    rewrite app_nil_r. apply in_or_app; left. apply in_or_app; right; left; reflexivity. }
  assert (Hne : snd (validate_scad_code max code) <> []).
  { destruct Hbad as [H|H]; [apply Hin1 in H|apply Hin2 in H];
      intros E; rewrite E in H; destruct H. }
  exists (snd (validate_scad_code max code)). split; [|split; assumption].
  unfold api_submit_render.
  destruct (validate_scad_code max code) as [ok errs] eqn:Ev. cbn [fst snd] in *.
  rewrite Hf. destruct errs; [contradiction|reflexivity].
Qed.

Lemma validate_rejects_traversal_witness :
  (In ("import", "Path traversal in import statement")
      [("import", "Path traversal in import statement");
       ("use", "Path traversal in use statement")] /\
   str_forall py_isspace " " = true /\ str_forall not_newline "lib/" = true /\
   str_forall not_newline "secret.scad" = true) /\
  fst (validate_scad_code 100000
         ("cube(1); " ++ "import" ++ " " ++ "<" ++ "lib/" ++ "../" ++ "secret.scad"
          ++ ">" ++ ";")) = false /\
  In "Path traversal in import statement"
     (snd (validate_scad_code 100000
             ("cube(1); " ++ "import" ++ " " ++ "<" ++ "lib/" ++ "../" ++ "secret.scad"
              ++ ">" ++ ";"))).
Proof.
  split; [split; [left; reflexivity|repeat split; reflexivity]|].
  apply (validate_rejects_traversal 100000 "import" "Path traversal in import statement"
           "cube(1); " " " "lib/" "secret.scad" ";");
    [left; reflexivity|reflexivity|reflexivity|reflexivity].
Defined.

Lemma api_submit_rejects_blank_or_oversize_witness :
  (py_strip "  " = "" \/ 100000 < Z.of_nat (String.length "  ")) /\
  exists errs,
    api_submit_render 100000 "/data" "j" "  " "both" {| rd_kv := ∅; rd_queue := [] |} ∅
      = (HttpError 400 ("Code validation failed: " ++ py_join ", " errs),
         {| rd_kv := ∅; rd_queue := [] |}, ∅) /\
    (py_strip "  " = "" -> In "Code cannot be empty" errs) /\
    (100000 < Z.of_nat (String.length "  ") ->
     In ("Code exceeds size limit (" ++ py_str_int 100000 ++ " bytes)") errs).
Proof.
  split; [left; reflexivity|].
  apply (api_submit_rejects_blank_or_oversize 100000 "/data" "j" "  " "both"
           {| rd_kv := ∅; rd_queue := [] |} ∅).
  left; reflexivity.
Defined.

(* ------------------------------------------------------------------ *)
(** ** Properties of the renderer's results *)

(** Extra: both renderers return [(True, None)] on success and
    [(False, message)] on failure: the flag is [True] exactly when no
    error message comes back, whatever the tool, the display server or
    the output file do. *)
Theorem render_result_shape timeout xvfb_popen o output_exists :
  (fst (fst (render_png timeout xvfb_popen o output_exists)) = true <->
   snd (fst (render_png timeout xvfb_popen o output_exists)) = None) /\
  (fst (fst (render_stl timeout o output_exists)) = true <->
   snd (fst (render_stl timeout o output_exists)) = None).
Proof.
  unfold render_png, render_stl, png_checks, stl_checks, subprocess_run.
  split; [destruct xvfb_popen|]; destruct o as [rc err| |m];
    try destruct (negb (Z.eqb rc 0)); try destruct (negb output_exists);
    cbn; split; congruence.
Qed.
